(** * Query parser and filter engine of the collisions dashboard

    A shallow embedding of [project/utils/filters.py]:
    [parse_search_query] and [apply_filters], together with the pandas
    and Python string operations they call.

    Python strings are modelled by [string], one [ascii] per code point,
    so the model covers the code points U+0000 .. U+00FF (Latin-1).  The
    character classes and case mappings below are Python's on that
    range.  Upper-casing can leave the range (U+00B5, U+00FF) or change
    the length (U+00DF), hence [upper] returns a list of code points.

    What pandas does differently from release 3.0 on is behind the
    class [Pandas]: a definition or theorem with a binder [pv : Pandas]
    is about the code on the release [pv], and a theorem that binds
    [pv] holds on every release. *)

From Stdlib Require Import ZArith NArith List String Ascii Bool Lia Sorted.
From stdpp Require Import base option list gmap strings pretty.

Local Open Scope N_scope.

(** ** Python string operations on Latin-1 *)

Module Py.

Definition ord (c : ascii) : N := N_of_ascii c.
Definition chr (n : N) : ascii := ascii_of_N n.

(** [str.isspace] for one character: U+0009..U+000D, U+001C..U+0020,
    U+0085 and U+00A0. *)
Definition char_isspace (c : ascii) : bool :=
  let n := ord c in
  ((9 <=? n) && (n <=? 13)) || ((28 <=? n) && (n <=? 32))
  || (n =? 133) || (n =? 160).

(** Characters accepted by [int()] as decimal digits. *)
Definition char_isdecimal (c : ascii) : bool :=
  let n := ord c in (48 <=? n) && (n <=? 57).

(** [str.isdigit] for one character: the decimal digits and the
    superscripts U+00B2, U+00B3, U+00B9. *)
Definition char_isdigit (c : ascii) : bool :=
  let n := ord c in
  char_isdecimal c || (n =? 178) || (n =? 179) || (n =? 185).

Definition char_lower (c : ascii) : ascii :=
  let n := ord c in
  if ((65 <=? n) && (n <=? 90))
     || ((192 <=? n) && (n <=? 222) && negb (n =? 215))
  then chr (n + 32) else c.

Definition char_upper (c : ascii) : list N :=
  let n := ord c in
  if (97 <=? n) && (n <=? 122) then [n - 32]
  else if n =? 181 then [924]
  else if n =? 223 then [83; 83]
  else if (224 <=? n) && (n <=? 254) && negb (n =? 247) then [n - 32]
  else if n =? 255 then [376]
  else [n].

(** The code points of a string. *)
Fixpoint cps (s : string) : list N :=
  match s with
  | EmptyString => []
  | String c s' => ord c :: cps s'
  end.

Fixpoint upper (s : string) : list N :=
  match s with
  | EmptyString => []
  | String c s' => char_upper c ++ upper s'
  end.

Fixpoint lower (s : string) : string :=
  match s with
  | EmptyString => EmptyString
  | String c s' => String (char_lower c) (lower s')
  end.

Fixpoint all_chars (f : ascii → bool) (s : string) : bool :=
  match s with
  | EmptyString => true
  | String c s' => f c && all_chars f s'
  end.

(** [s.isdigit()]: at least one character, all of them digits. *)
Definition isdigit (s : string) : bool :=
  match s with
  | EmptyString => false
  | _ => all_chars char_isdigit s
  end.

Definition len (s : string) : nat := String.length s.

Fixpoint lstrip (s : string) : string :=
  match s with
  | EmptyString => EmptyString
  | String c s' => if char_isspace c then lstrip s' else s
  end.

Fixpoint rstrip (s : string) : string :=
  match s with
  | EmptyString => EmptyString
  | String c s' =>
      match rstrip s' with
      | EmptyString => if char_isspace c then EmptyString
                       else String c EmptyString
      | r => String c r
      end
  end.

Definition strip (s : string) : string := rstrip (lstrip s).

(** [s.split()] with no separator: the maximal runs of non-space
    characters, in order.  [cur] is the run being read. *)
Fixpoint split_from (cur : string) (s : string) : list string :=
  match s with
  | EmptyString =>
      match cur with EmptyString => [] | _ => [cur] end
  | String c s' =>
      if char_isspace c then
        match cur with
        | EmptyString => split_from EmptyString s'
        | _ => cur :: split_from EmptyString s'
        end
      else split_from (cur +:+ String c EmptyString) s'
  end.

Definition split (s : string) : list string := split_from EmptyString s.

(** [a in s] for strings: [a] occurs in [s] as a contiguous substring. *)
Fixpoint contains (s a : string) : bool :=
  String.prefix a s ||
  match s with
  | EmptyString => false
  | String _ s' => contains s' a
  end.

(** Exceptions the modelled code can meet. *)
Inductive exn : Type := ValueError | KeyError | TypeError | AttributeError.

(** Outcome of a call: a value, a raised exception, or [Regex]: the
    call handed a pattern with regular-expression operators to Python's
    [re] engine, whose matching rules are not modelled. *)
Inductive outcome (A : Type) : Type :=
| Ok (a : A)
| Raise (e : exn)
| Regex.

Arguments Ok {A} a.
Arguments Raise {A} e.
Arguments Regex {A}.

Definition bind {A B : Type} (m : outcome A) (k : A → outcome B)
  : outcome B :=
  match m with
  | Ok a => k a
  | Raise e => Raise e
  | Regex => Regex
  end.

#[global] Instance exn_eq_dec : EqDecision exn.
Proof. solve_decision. Defined.

(** [try: m  except e: handler] *)
Definition try_except {A : Type} (m : outcome A) (e : exn)
    (handler : outcome A) : outcome A :=
  match m with
  | Raise e' => if bool_decide (e' = e) then handler else m
  | _ => m
  end.

(** Value of a decimal digit string, most significant digit first. *)
Fixpoint digits_value (acc : Z) (s : string) : Z :=
  match s with
  | EmptyString => acc
  | String c s' => digits_value (10 * acc + Z.of_N (ord c - 48))%Z s'
  end.

(** [int(s)] on the strings the parser passes to it, those with
    [s.isdigit()]: the value when every character is a decimal digit,
    [ValueError] otherwise (a superscript digit is no literal). *)
Definition int (s : string) : outcome Z :=
  if isdigit s && all_chars char_isdecimal s
  then Ok (digits_value 0 s) else Raise ValueError.

#[global] Instance outcome_bind : MBind outcome := λ A B k m, bind m k.
#[global] Instance outcome_fmap : FMap outcome :=
  λ A B f m, bind m (λ a, Ok (f a)).

End Py.

Import Py.

(** ** Search query parsing *)

(** Values stored in the dictionary that [parse_search_query] returns. *)
Inductive pyval : Type :=
| PNone
| PStr (s : string)
| PInt (n : Z)
| PList (l : list string).

Definition BOROUGH_TOKENS : list string :=
  ["MANHATTAN"; "BROOKLYN"; "QUEENS"; "BRONX"; "STATEN"; "STATEN ISLAND"].

(** [result["keywords"].append(p)] *)
Definition append_keyword (result : gmap string pyval) (p : string)
  : outcome (gmap string pyval) :=
  match result !! "keywords" with
  | Some (PList ks) => Ok (<["keywords" := PList (ks ++ [p])]> result)
  | Some _ => Raise AttributeError
  | None => Raise KeyError
  end.

(** One iteration of the loop over the tokens.  [up in [...]] is a
    search for the listed name [b] spelled by [up]; on a hit [up] and
    [b] are the same string, and [b] is what gets stored. *)
Definition parse_token (result : gmap string pyval) (p : string)
  : outcome (gmap string pyval) :=
  let up := upper p in
  match find (λ b, bool_decide (up = cps b)) BOROUGH_TOKENS with
  | Some b =>
      Ok (<["borough" :=
              PStr (if String.prefix "STATEN" b then "STATEN ISLAND" else b)]>
            result)
  | None =>
      if isdigit p && (len p =? 4)%nat then
        try_except (n ← int p; Ok (<["year" := PInt n]> result))
          ValueError (Ok result)
      else append_keyword result p
  end.

Fixpoint parse_tokens (result : gmap string pyval) (parts : list string)
  : outcome (gmap string pyval) :=
  match parts with
  | [] => Ok result
  | p :: parts' => result' ← parse_token result p; parse_tokens result' parts'
  end.

Definition fresh_result : gmap string pyval :=
  <["keywords" := PList []]> (<["year" := PNone]> (<["borough" := PNone]> ∅)).

Definition parse_search_query (query : string) : outcome (gmap string pyval) :=
  match query with
  | EmptyString => Ok ∅
  | _ => parse_tokens fresh_result (split (strip query))
  end.

Definition parsed (b y : pyval) (ks : list string) : gmap string pyval :=
  <["keywords" := PList ks]> (<["year" := y]> (<["borough" := b]> ∅)).

(** ** Data frames *)

(** A cell holds a string, an integer, or NaN, the marker pandas uses
    for a missing value. *)
Inductive value : Type :=
| VStr (s : string)
| VInt (n : Z)
| VNaN.

#[global] Instance value_eq_dec : EqDecision value.
Proof. solve_decision. Defined.

(** A frame: its column labels and its rows in order, each row mapping
    labels to cells.  A label without an entry in a row reads as NaN.

    A frame carries its cells and not the dtypes of its columns.  Where
    pandas lets the dtype decide (see [str_accessor], [isin] and
    [str_of] below) the definitions say which case they follow, and
    the theorems that depend on it assume what rules the other cases
    out. *)
Record DataFrame : Type := {
  columns : list string;
  rows : list (gmap string value)
}.

Module Pd.

(** The pandas release the code runs on.  The repository pins none, and
    [astype(str)] changed with release 3.0. *)
Inductive release : Type :=
| Before3   (* a release before 3.0 *)
| From3.    (* release 3.0 or a later one *)

Class Pandas := pandas_release : release.

Definition cell (r : gmap string value) (col : string) : value :=
  default VNaN (r !! col).

(** [df[col]]: the cells of one column, as a series. *)
Definition column (df : DataFrame) (col : string) : list value :=
  (λ r, cell r col) <$> rows df.

(** [col in df.columns] *)
Definition has_column (df : DataFrame) (col : string) : bool :=
  bool_decide (col ∈ columns df).

(** Boolean indexing: the elements at which the mask is true. *)
Fixpoint select {A : Type} (l : list A) (mask : list bool) : list A :=
  match l, mask with
  | x :: l', b :: mask' =>
      if b then x :: select l' mask' else select l' mask'
  | _, _ => []
  end.

(** [df[mask]] *)
Definition take (df : DataFrame) (mask : list bool) : DataFrame :=
  {| columns := columns df; rows := select (rows df) mask |}.

(** [series.isin(values)]; NaN is a member of a list that holds NaN.
    Membership is equality of cells.  pandas compares an int64 column
    with a list that holds NaN through float64, where an integer of
    magnitude 2^53 or more can meet another one; for the integers
    below 2^53 in magnitude, which float64 holds exactly and to which
    no other integer is rounded, every path of pandas compares as here
    (see [exact_cells]). *)
Definition isin (s : list value) (values : list value) : list bool :=
  (λ v, bool_decide (v ∈ values)) <$> s.

Definition notna (v : value) : bool :=
  match v with VNaN => false | _ => true end.

Definition is_int (v : value) : bool :=
  match v with VInt _ => true | _ => false end.

(** [series.str]: pandas infers the kind of the non-missing cells and
    raises AttributeError ("Can only use .str accessor with string
    values") when they are all integers.  A series of strings and a
    mixed one pass.  A series without any non-missing cell passes when
    its dtype is object or string, as after [astype(str)] or a
    selection from a column of strings, which is the case followed
    here; with dtype float64, as pandas builds it from missing values
    alone, it raises.  A series that holds a string is never in that
    last case (see [holds_string]). *)
Definition str_accessor (s : list value) : outcome (list value) :=
  let present := List.filter notna s in
  match present with
  | [] => Ok s
  | _ => if forallb is_int present then Raise AttributeError else Ok s
  end.

(** [.str.upper()]: strings are upper-cased, any other cell gives NaN
    (here [None]). *)
Definition str_upper (s : list value) : list (option (list N)) :=
  (λ v, match v with VStr x => Some (upper x) | _ => None end) <$> s.

(** [.isin(values)] on an upper-cased series. *)
Definition isin_upper (s : list (option (list N))) (values : list (list N))
  : list bool :=
  (λ o, match o with
        | Some u => bool_decide (u ∈ values)
        | None => false
        end) <$> s.

(** [astype(str)] on one cell: a string stays and an integer is written
    in decimal, as Python's [str] does.  A missing value becomes the
    string "nan" before pandas 3.0; from 3.0 on it stays missing, here
    [None].  (An integer in a float64 column is a float and is written
    with a decimal point; the cells here are Python integers, see
    [text_cells].) *)
Definition str_of {pv : Pandas} (v : value) : option string :=
  match v with
  | VStr s => Some s
  | VInt n => Some (pretty n)
  | VNaN => match pv with
            | Before3 => Some "nan"%string
            | From3 => None
            end
  end.

Definition astype_str {pv : Pandas} (s : list value) : list (option string) :=
  str_of <$> s.

(** [.str.lower()]: a missing value stays missing. *)
Definition str_lower (s : list (option string)) : list (option string) :=
  (λ o : option string, lower <$> o) <$> s.

Definition regex_operator (c : ascii) : bool :=
  bool_decide (c ∈ list_ascii_of_string ".^$*+?{}[]\|()").

(** A pattern without regular-expression operators matches as itself. *)
Definition regex_plain (pat : string) : bool :=
  all_chars (λ c, negb (regex_operator c)) pat.

(** [.str.contains(pat, na=False)] on a series of strings.  The pattern
    is a regular expression; one made of plain characters is found
    where it occurs as a substring.  [na=False] gives False at a
    missing value. *)
Definition str_contains (s : list (option string)) (pat : string)
  : outcome (list bool) :=
  if regex_plain pat
  then Ok ((λ o, match o with
                 | Some x => contains x pat
                 | None => false
                 end) <$> s)
  else Regex.

End Pd.

Import Pd.

(** ** Column constants *)

Definition COL_BOROUGH : string := "BOROUGH".
Definition COL_YEAR : string := "CRASH_YEAR".
Definition COL_MONTH : string := "CRASH_MONTH".
Definition COL_HOUR : string := "CRASH_HOUR".
Definition COL_COLLISION_ID : string := "COLLISION_ID".
Definition COL_PERSON_INJURY : string := "PERSON_INJURY".
Definition COL_PERSON_TYPE : string := "PERSON_TYPE".
Definition COL_VEHICLE_TYPE : string := "VEHICLE_TYPE_CODE_1".
Definition COL_FACTOR : string := "CONTRIBUTING_FACTOR_VEHICLE_1".

(** ** The filtering helper *)

(** The optional arguments of [apply_filters].  Python does not check
    the element types of the lists, so they hold arbitrary cells. *)
Record FilterArgs : Type := {
  boroughs : option (list value);
  years : option (list value);
  months : option (list value);
  hours : option (list value);
  injuries : option (list value);
  person_types : option (list value);
  vehicle_types : option (list value);
  factors : option (list value);
  search_text : option string
}.

Definition no_filters : FilterArgs :=
  {| boroughs := None; years := None; months := None; hours := None;
     injuries := None; person_types := None; vehicle_types := None;
     factors := None; search_text := None |}.

(** Truth value of an optional list: [None] and [[]] are false. *)
Definition truthy {A : Type} (o : option (list A)) : bool :=
  match o with
  | Some (_ :: _) => true
  | _ => false
  end.

Definition elems {A : Type} (o : option (list A)) : list A := default [] o.

(** [b.upper()] on a list element: only strings have the method. *)
Definition value_upper (b : value) : outcome (list N) :=
  match b with
  | VStr s => Ok (upper s)
  | _ => Raise AttributeError
  end.

(** [[b.upper() for b in boroughs]] *)
Fixpoint upper_all (bs : list value) : outcome (list (list N)) :=
  match bs with
  | [] => Ok []
  | b :: bs' => u ← value_upper b; us ← upper_all bs'; Ok (u :: us)
  end.

(** [if crit and col in filtered.columns:
       filtered = filtered[filtered[col].isin(crit)]] *)
Definition isin_filter (filtered : DataFrame) (crit : option (list value))
    (col : string) : DataFrame :=
  if truthy crit && has_column filtered col
  then take filtered (isin (column filtered col) (elems crit))
  else filtered.

(** The loop over the searched columns, refining [mask]. *)
Fixpoint search_mask {pv : Pandas} (filtered : DataFrame) (text : string)
    (cols : list string) (mask : list bool) : outcome (list bool) :=
  match cols with
  | [] => Ok mask
  | col :: cols' =>
      mask' ← (if has_column filtered col then
                 m ← str_contains
                       (str_lower (astype_str (column filtered col))) text;
                 Ok (zip_with andb mask m)
               else Ok mask);
      search_mask filtered text cols' mask'
  end.

Definition SEARCHED : list string := [COL_FACTOR; COL_VEHICLE_TYPE; COL_BOROUGH].

Definition apply_filters {pv : Pandas} (df : DataFrame) (a : FilterArgs)
  : outcome DataFrame :=
  let filtered := df in
  (* Borough filter *)
  filtered ←
    (if truthy (boroughs a) && has_column filtered COL_BOROUGH then
       boroughs_up ← upper_all (elems (boroughs a));
       s ← str_accessor (column filtered COL_BOROUGH);
       Ok (take filtered (isin_upper (str_upper s) boroughs_up))
     else Ok filtered);
  let filtered := isin_filter filtered (years a) COL_YEAR in
  let filtered := isin_filter filtered (months a) COL_MONTH in
  let filtered := isin_filter filtered (hours a) COL_HOUR in
  let filtered := isin_filter filtered (injuries a) COL_PERSON_INJURY in
  let filtered := isin_filter filtered (person_types a) COL_PERSON_TYPE in
  let filtered := isin_filter filtered (vehicle_types a) COL_VEHICLE_TYPE in
  let filtered := isin_filter filtered (factors a) COL_FACTOR in
  (* Free-text search in factor / vehicle / borough *)
  match search_text a with
  | Some (String c s) =>
      let text := lower (strip (String c s)) in
      match text with
      | EmptyString => Ok filtered
      | _ =>
          mask ← search_mask filtered text SEARCHED
                   (replicate (length (rows filtered)) true);
          Ok (take filtered mask)
      end
  | _ => Ok filtered
  end.

(** ** Reading a token list

    What the parser is expected to make of each token, stated on the
    token itself. *)

(** The token, upper-cased, is one of the listed borough names. *)
Definition is_borough_token (p : string) : bool :=
  bool_decide (upper p ∈ cps <$> BOROUGH_TOKENS).

(** The borough value a borough token stands for. *)
Definition borough_value (p : string) : pyval :=
  match find (λ b, bool_decide (upper p = cps b)) BOROUGH_TOKENS with
  | Some b => PStr (if String.prefix "STATEN" b then "STATEN ISLAND" else b)
  | None => PNone
  end.

(** Exactly four characters, each an ASCII digit. *)
Definition four_ascii_digits (p : string) : bool :=
  (len p =? 4)%nat && all_chars char_isdecimal p.

(** Exactly four characters, each a digit for [str.isdigit]. *)
Definition four_digits (p : string) : bool :=
  isdigit p && (len p =? 4)%nat.

Definition is_year_token (p : string) : bool :=
  negb (is_borough_token p) && four_ascii_digits p.

Definition is_keyword_token (p : string) : bool :=
  negb (is_borough_token p) && negb (four_digits p).

(** A token that is neither stored as borough or year nor kept as a
    keyword: four digits that [int] does not read. *)
Definition is_discarded_token (p : string) : bool :=
  negb (is_borough_token p) && four_digits p && negb (four_ascii_digits p).

Definition keywords_of (parts : list string) : list string :=
  List.filter is_keyword_token parts.

(** The last year token decides; [y] stands when there is none. *)
Definition year_of (y : pyval) (parts : list string) : pyval :=
  List.last ((λ p, PInt (digits_value 0 p)) <$> List.filter is_year_token parts) y.

Definition borough_of (b : pyval) (parts : list string) : pyval :=
  List.last (borough_value <$> List.filter is_borough_token parts) b.

(** The superscript two, U+00B2. *)
Definition sup2 : ascii := chr 178.
Definition sup2222 : string :=
  String sup2 (String sup2 (String sup2 (String sup2 EmptyString))).

(** ** Reading a filter call *)

Definition set_boroughs (v : option (list value)) (a : FilterArgs) :=
  {| boroughs := v; years := years a; months := months a; hours := hours a;
     injuries := injuries a; person_types := person_types a;
     vehicle_types := vehicle_types a; factors := factors a;
     search_text := search_text a |}.
Definition set_years (v : option (list value)) (a : FilterArgs) :=
  {| boroughs := boroughs a; years := v; months := months a; hours := hours a;
     injuries := injuries a; person_types := person_types a;
     vehicle_types := vehicle_types a; factors := factors a;
     search_text := search_text a |}.
Definition set_months (v : option (list value)) (a : FilterArgs) :=
  {| boroughs := boroughs a; years := years a; months := v; hours := hours a;
     injuries := injuries a; person_types := person_types a;
     vehicle_types := vehicle_types a; factors := factors a;
     search_text := search_text a |}.
Definition set_hours (v : option (list value)) (a : FilterArgs) :=
  {| boroughs := boroughs a; years := years a; months := months a; hours := v;
     injuries := injuries a; person_types := person_types a;
     vehicle_types := vehicle_types a; factors := factors a;
     search_text := search_text a |}.
Definition set_injuries (v : option (list value)) (a : FilterArgs) :=
  {| boroughs := boroughs a; years := years a; months := months a;
     hours := hours a; injuries := v; person_types := person_types a;
     vehicle_types := vehicle_types a; factors := factors a;
     search_text := search_text a |}.
Definition set_person_types (v : option (list value)) (a : FilterArgs) :=
  {| boroughs := boroughs a; years := years a; months := months a;
     hours := hours a; injuries := injuries a; person_types := v;
     vehicle_types := vehicle_types a; factors := factors a;
     search_text := search_text a |}.
Definition set_vehicle_types (v : option (list value)) (a : FilterArgs) :=
  {| boroughs := boroughs a; years := years a; months := months a;
     hours := hours a; injuries := injuries a; person_types := person_types a;
     vehicle_types := v; factors := factors a;
     search_text := search_text a |}.
Definition set_factors (v : option (list value)) (a : FilterArgs) :=
  {| boroughs := boroughs a; years := years a; months := months a;
     hours := hours a; injuries := injuries a; person_types := person_types a;
     vehicle_types := vehicle_types a; factors := v;
     search_text := search_text a |}.
Definition set_search_text (v : option string) (a : FilterArgs) :=
  {| boroughs := boroughs a; years := years a; months := months a;
     hours := hours a; injuries := injuries a; person_types := person_types a;
     vehicle_types := vehicle_types a; factors := factors a;
     search_text := v |}.

(** The frame with the rows of [df] that satisfy [keep], in order. *)
Definition restrict (df : DataFrame) (keep : gmap string value → bool)
  : DataFrame :=
  {| columns := columns df; rows := List.filter keep (rows df) |}.

(** The row's cell under [col] is a member of [vs], as given. *)
Definition member_row (col : string) (vs : list value)
    (r : gmap string value) : bool :=
  bool_decide (cell r col ∈ vs).

(** The row's cell under [col] is a string whose upper-casing is among
    the upper-cased strings [ups]. *)
Definition upper_member_row (col : string) (ups : list (list N))
    (r : gmap string value) : bool :=
  match cell r col with
  | VStr s => bool_decide (upper s ∈ ups)
  | _ => false
  end.

(** The row's cell under [col] has a text form, and this, lower-cased,
    has [text] as a substring. *)
Definition cell_contains {pv : Pandas} (text col : string)
    (r : gmap string value) : bool :=
  match str_of (cell r col) with
  | Some s => contains (lower s) text
  | None => false
  end.

(** The searched columns that the frame has. *)
Definition searched_in (df : DataFrame) : list string :=
  List.filter (has_column df) SEARCHED.

(** Every searched column of the frame contains the text. *)
Definition search_all {pv : Pandas} (df : DataFrame) (text : string)
    (r : gmap string value) : bool :=
  forallb (λ col, cell_contains text col r) (searched_in df).

(** The reading of the free-text criterion as a disjunction: at least
    one searched column of the frame contains the text. *)
Definition search_any {pv : Pandas} (df : DataFrame) (text : string)
    (r : gmap string value) : bool :=
  existsb (λ col, cell_contains text col r) (searched_in df).

(** A criterion is in force when its list is non-empty and the frame
    has its column. *)
Definition in_force (df : DataFrame) (crit : option (list value))
    (col : string) : bool :=
  truthy crit && has_column df col.

Definition keep_isin (df : DataFrame) (crit : option (list value))
    (col : string) (r : gmap string value) : bool :=
  if in_force df crit col then member_row col (elems crit) r else true.

(** The seven criteria that are tested with [isin], taken together. *)
Definition keep_exact (df : DataFrame) (a : FilterArgs)
    (r : gmap string value) : bool :=
  keep_isin df (years a) COL_YEAR r
  && keep_isin df (months a) COL_MONTH r
  && keep_isin df (hours a) COL_HOUR r
  && keep_isin df (injuries a) COL_PERSON_INJURY r
  && keep_isin df (person_types a) COL_PERSON_TYPE r
  && keep_isin df (vehicle_types a) COL_VEHICLE_TYPE r
  && keep_isin df (factors a) COL_FACTOR r.

(** A criterion value a caller could supply by mistake: a year, month
    or hour that is no integer, or an empty string in any list. *)
Definition malformed_number (v : value) : bool := negb (is_int v).
Definition malformed_label (v : value) : bool :=
  bool_decide (v = VStr EmptyString).

Definition malformed (a : FilterArgs) : bool :=
  existsb malformed_number (elems (years a) ++ elems (months a) ++ elems (hours a))
  || existsb malformed_label
       (elems (boroughs a) ++ elems (injuries a) ++ elems (person_types a)
        ++ elems (vehicle_types a) ++ elems (factors a)).

(** The search text is empty once trimmed (or there is none). *)
Definition blank_search (o : option string) : bool :=
  match o with
  | None => true
  | Some s => bool_decide (strip s = EmptyString)
  end.

(** Every criterion is absent or empty. *)
Definition all_empty (a : FilterArgs) : bool :=
  negb (truthy (boroughs a)) && negb (truthy (years a))
  && negb (truthy (months a)) && negb (truthy (hours a))
  && negb (truthy (injuries a)) && negb (truthy (person_types a))
  && negb (truthy (vehicle_types a)) && negb (truthy (factors a))
  && blank_search (search_text a).

(** An empty list read as an absent criterion. *)
Definition drop_empty_list (o : option (list value)) : option (list value) :=
  if truthy o then o else None.

Definition drop_blank (o : option string) : option string :=
  if blank_search o then None else o.

Definition drop_empty (a : FilterArgs) : FilterArgs :=
  {| boroughs := drop_empty_list (boroughs a);
     years := drop_empty_list (years a);
     months := drop_empty_list (months a);
     hours := drop_empty_list (hours a);
     injuries := drop_empty_list (injuries a);
     person_types := drop_empty_list (person_types a);
     vehicle_types := drop_empty_list (vehicle_types a);
     factors := drop_empty_list (factors a);
     search_text := drop_blank (search_text a) |}.

(** The first step of [apply_filters], on its own. *)
Definition borough_step (df : DataFrame) (bs : option (list value))
  : outcome DataFrame :=
  if truthy bs && has_column df COL_BOROUGH then
    boroughs_up ← upper_all (elems bs);
    s ← str_accessor (column df COL_BOROUGH);
    Ok (take df (isin_upper (str_upper s) boroughs_up))
  else Ok df.

(** The seven [isin] steps, on their own. *)
Definition exact_steps (filtered : DataFrame) (a : FilterArgs) : DataFrame :=
  let filtered := isin_filter filtered (years a) COL_YEAR in
  let filtered := isin_filter filtered (months a) COL_MONTH in
  let filtered := isin_filter filtered (hours a) COL_HOUR in
  let filtered := isin_filter filtered (injuries a) COL_PERSON_INJURY in
  let filtered := isin_filter filtered (person_types a) COL_PERSON_TYPE in
  let filtered := isin_filter filtered (vehicle_types a) COL_VEHICLE_TYPE in
  isin_filter filtered (factors a) COL_FACTOR.

(** The last step of [apply_filters], on its own. *)
Definition search_step {pv : Pandas} (filtered : DataFrame) (o : option string)
  : outcome DataFrame :=
  match o with
  | Some (String c s) =>
      let text := lower (strip (String c s)) in
      match text with
      | EmptyString => Ok filtered
      | _ =>
          mask ← search_mask filtered text SEARCHED
                   (replicate (length (rows filtered)) true);
          Ok (take filtered mask)
      end
  | _ => Ok filtered
  end.

(** The borough criterion, a list of strings, read on one row. *)
Definition keep_borough (df : DataFrame) (bs : list string)
    (r : gmap string value) : bool :=
  if in_force df (Some (VStr <$> bs)) COL_BOROUGH
  then upper_member_row COL_BOROUGH (upper <$> bs) r
  else true.

(** The free-text criterion read on one row: in force when the text,
    trimmed and lower-cased, is not empty. *)
Definition keep_search {pv : Pandas} (df : DataFrame) (o : option string)
    (r : gmap string value) : bool :=
  if blank_search o then true
  else search_all df (lower (strip (default EmptyString o))) r.

(** ** Example frames *)

Definition row3 (b f v : value) : gmap string value :=
  <[COL_BOROUGH := b]> (<[COL_FACTOR := f]> (<[COL_VEHICLE_TYPE := v]> ∅)).

(** Five rows, three of them in Queens, one of these three with
    "speed" in its contributing factor. *)
Definition queens5 : DataFrame :=
  {| columns := [COL_BOROUGH; COL_FACTOR; COL_VEHICLE_TYPE];
     rows := [ row3 (VStr "QUEENS") (VStr "Unsafe Speed") (VStr "Sedan");
               row3 (VStr "QUEENS") (VStr "Driver Inattention") (VStr "Sedan");
               row3 (VStr "QUEENS") (VStr "Unspecified") (VStr "Taxi");
               row3 (VStr "BROOKLYN") (VStr "Unsafe Speed") (VStr "Bus");
               row3 (VStr "BRONX") (VStr "Unspecified") (VStr "Sedan") ] |}.

Definition queens_speed : FilterArgs :=
  set_boroughs (Some [VStr "QUEENS"]) (set_search_text (Some "speed") no_filters).

(** Two persons, one killed and one injured. *)
Definition killed_row : gmap string value :=
  <[COL_PERSON_INJURY := VStr "Killed"]> ∅.
Definition injured_row : gmap string value :=
  <[COL_PERSON_INJURY := VStr "Injured"]> ∅.
Definition injury_frame : DataFrame :=
  {| columns := [COL_PERSON_INJURY]; rows := [killed_row; injured_row] |}.

(** One row whose contributing factor is missing. *)
Definition missing_factor_row : gmap string value :=
  <[COL_FACTOR := VNaN]> ∅.
Definition missing_factor_frame : DataFrame :=
  {| columns := [COL_FACTOR]; rows := [missing_factor_row] |}.

(** Two rows with their crash year. *)
Definition year_frame : DataFrame :=
  {| columns := [COL_YEAR; COL_BOROUGH];
     rows := [ <[COL_YEAR := VInt 2019]> (<[COL_BOROUGH := VStr "BRONX"]> ∅);
               <[COL_YEAR := VInt 2020]> (<[COL_BOROUGH := VStr ""]> ∅) ] |}.

(** ** Aggregation *)

Module Summary.

Record SummaryMetrics : Type := {
  crashes : nat;
  persons : nat;
  injured : nat;
  fatalities : nat
}.

(** The injury labels are configuration: the ones that stand for no
    injury, and the ones that stand for a fatal outcome. *)
Record Labels : Type := {
  no_injury : list value;
  fatal : list value
}.

(** State of the single pass: the collision identifiers met so far,
    each once, and the three row counts. *)
Record Pass : Type := {
  seen : list value;
  n_persons : nat;
  n_injured : nat;
  n_fatal : nat
}.

Definition count_if (b : bool) (n : nat) : nat := if b then S n else n.

Definition visit (lab : Labels) (st : Pass) (r : gmap string value) : Pass :=
  let id := cell r COL_COLLISION_ID in
  let inj := cell r COL_PERSON_INJURY in
  {| seen := if notna id && negb (bool_decide (id ∈ seen st))
             then id :: seen st else seen st;
     n_persons := S (n_persons st);
     n_injured := count_if (negb (bool_decide (inj ∈ no_injury lab))) (n_injured st);
     n_fatal := count_if (bool_decide (inj ∈ fatal lab)) (n_fatal st) |}.

(** Modelled from the spec: the aggregation function [summarize], whose
    code is not among the sources.  Crashes are the distinct collision
    identifiers present, persons the rows, injuries the rows whose
    injury label is not a no-injury label, fatalities the rows whose
    label is a fatal one; all four come from one pass over the rows. *)
Definition summarize (lab : Labels) (df : DataFrame) : SummaryMetrics :=
  let st := fold_left (visit lab) (rows df)
              {| seen := []; n_persons := 0; n_injured := 0; n_fatal := 0 |} in
  {| crashes := length (seen st); persons := n_persons st;
     injured := n_injured st; fatalities := n_fatal st |}.

Definition person (id : Z) (inj : string) : gmap string value :=
  <[COL_COLLISION_ID := VInt id]> (<[COL_PERSON_INJURY := VStr inj]> ∅).

Definition labels : Labels :=
  {| no_injury := [VStr "Unspecified"]; fatal := [VStr "Killed"] |}.

(** Ten person rows over four collisions; two killed, three injured. *)
Definition ten_persons : DataFrame :=
  {| columns := [COL_COLLISION_ID; COL_PERSON_INJURY];
     rows := [ person 101 "Killed"; person 101 "Injured";
               person 101 "Unspecified"; person 102 "Unspecified";
               person 102 "Injured"; person 103 "Killed";
               person 103 "Unspecified"; person 104 "Injured";
               person 104 "Unspecified"; person 101 "Unspecified" ] |}.

End Summary.

(** ** Further readings of tokens and results *)

(** No character of the string is white space. *)
Definition no_space (s : string) : bool :=
  all_chars (λ c, negb (char_isspace c)) s.

(** The borough a listed name stands for. *)
Definition canonical_borough (name : string) : string :=
  if String.prefix "STATEN" name then "STATEN ISLAND" else name.

Definition CANONICAL_BOROUGHS : list string :=
  ["MANHATTAN"; "BROOKLYN"; "QUEENS"; "BRONX"; "STATEN ISLAND"].

(** ** Further readings of calls *)

(** The search of a call can be decided in this model: there is no
    text to search, or the text is plain, or the frame has none of the
    searched columns. *)
Definition searchable (df : DataFrame) (o : option string) : bool :=
  blank_search o
  || regex_plain (lower (strip (default EmptyString o)))
  || forallb (λ c, negb (has_column df c)) SEARCHED.

(** The borough criterion read on one row, for upper-cased names. *)
Definition keep_upper (df : DataFrame) (bs : option (list value))
    (ups : list (list N)) (r : gmap string value) : bool :=
  if in_force df bs COL_BOROUGH then upper_member_row COL_BOROUGH ups r
  else true.

(** One outcome narrows another: when it is a frame, so is the other,
    both have the same columns, and its rows are rows of the other in
    the same order. *)
Definition narrows (m m0 : outcome DataFrame) : Prop :=
  ∀ d, m = Ok d →
    ∃ d0, m0 = Ok d0 ∧ columns d = columns d0 ∧ sublist (rows d) (rows d0).

Definition is_string (v : value) : bool :=
  match v with VStr _ => true | _ => false end.

(** ** Loading: column names and string columns

    The parts of [load_data] that follow the reading of the file: the
    renaming of the column labels and the cleaning of the string
    columns. *)

Definition COL_LAT : string := "LATITUDE".
Definition COL_LON : string := "LONGITUDE".

Definition RENAMES : gmap string string :=
  list_to_map
    [ ("BOROUGH ", COL_BOROUGH);
      ("CRASH YEAR", COL_YEAR);
      ("CRASH MONTH", COL_MONTH);
      ("CRASH HOUR", COL_HOUR);
      ("LATITUDE ", COL_LAT);
      ("LONGITUDE ", COL_LON);
      ("VEHICLE TYPE CODE 1", COL_VEHICLE_TYPE);
      ("CONTRIBUTING FACTOR VEHICLE 1", COL_FACTOR);
      ("PERSON TYPE", COL_PERSON_TYPE);
      ("PERSON INJURY", COL_PERSON_INJURY);
      ("COLLISION_ID", COL_COLLISION_ID) ].

(** [{old: new for old, new in RENAMES.items() if old in df.columns}] *)
Definition rename_map (cols : list string) : gmap string string :=
  filter (λ kv, kv.1 ∈ cols) RENAMES.

(** The column labels after
    [if rename_map: df.rename(columns=rename_map, inplace=True)]:
    a label that is a key of the map takes the name it is mapped to. *)
Definition renamed_columns (cols : list string) : list string :=
  let m := rename_map cols in
  if decide (m = ∅) then cols else (λ c, default c (m !! c)) <$> cols.

(** The spellings that [RENAMES] replaces by another name. *)
Definition VARIANT_LABELS : list string :=
  [ "BOROUGH "; "CRASH YEAR"; "CRASH MONTH"; "CRASH HOUR"; "LATITUDE ";
    "LONGITUDE "; "VEHICLE TYPE CODE 1"; "CONTRIBUTING FACTOR VEHICLE 1";
    "PERSON TYPE"; "PERSON INJURY" ].

(** [.str.strip()] on a series of strings: a missing value stays
    missing. *)
Definition str_strip (s : list (option string)) : list (option string) :=
  (λ o : option string, strip <$> o) <$> s.

(** The cell that a series of strings holds at one place. *)
Definition text_cell (o : option string) : value :=
  match o with
  | Some s => VStr s
  | None => VNaN
  end.

(** [df[col] = series]: every row takes its cell from the series; a
    label the frame does not have yet is added at the end. *)
Definition assign (df : DataFrame) (col : string) (s : list value)
  : DataFrame :=
  {| columns := if has_column df col then columns df else columns df ++ [col];
     rows := zip_with (λ r v, <[col := v]> r) (rows df) s |}.

Definition STRING_COLUMNS : list string :=
  [COL_BOROUGH; COL_PERSON_INJURY; COL_PERSON_TYPE; COL_VEHICLE_TYPE;
   COL_FACTOR].

(** [if col in df.columns: df[col] = df[col].astype(str).str.strip()] *)
Definition clean_column {pv : Pandas} (df : DataFrame) (col : string)
  : DataFrame :=
  if has_column df col
  then assign df col (text_cell <$> str_strip (astype_str (column df col)))
  else df.

(** The loop over the string columns. *)
Definition clean_strings {pv : Pandas} (df : DataFrame) : DataFrame :=
  fold_left clean_column STRING_COLUMNS df.

(** The cleaning read on one row. *)
Definition clean_cell {pv : Pandas} (col : string) (r : gmap string value)
  : gmap string value :=
  <[col := text_cell (strip <$> str_of (cell r col))]> r.

Definition clean_row {pv : Pandas} (df : DataFrame) (cols : list string)
    (r : gmap string value) : gmap string value :=
  fold_left (λ r col, if has_column df col then clean_cell col r else r)
    cols r.

(** ** The frames and releases the theorems speak of *)

(** A statement that holds on the releases of pandas before 3.0 and on
    those from 3.0 on. *)
Definition every_release (P : Pandas → Prop) : Prop := P Before3 ∧ P From3.

(** The series holds a string.  Its dtype is then object or string,
    never a number dtype, and [.str] passes. *)
Definition holds_string (s : list value) : bool := existsb is_string s.

(** An integer below 2^53 in magnitude: float64 holds it exactly and
    rounds no other integer to it, so pandas finds it in a list exactly
    when it is an element of the list, through float64 or not. *)
Definition exact_int (v : value) : bool :=
  match v with
  | VInt n => (Z.abs n <? 2 ^ 53)%Z
  | _ => true
  end.

(** The columns that [apply_filters] tests with [isin]. *)
Definition ISIN_COLUMNS : list string :=
  [COL_YEAR; COL_MONTH; COL_HOUR; COL_PERSON_INJURY; COL_PERSON_TYPE;
   COL_VEHICLE_TYPE; COL_FACTOR].

(** The integers in the columns tested with [isin] are below 2^53 in
    magnitude. *)
Definition exact_cells (df : DataFrame) : bool :=
  forallb (λ col, forallb exact_int (column df col)) ISIN_COLUMNS.

(** The string columns hold strings and missing values, no integer. *)
Definition text_cells (df : DataFrame) : bool :=
  forallb (λ col, forallb (λ v, negb (is_int v)) (column df col))
    STRING_COLUMNS.

(** Two rows, the second without a known vehicle type and with white
    space around its borough. *)
Definition padded_frame : DataFrame :=
  {| columns := [COL_BOROUGH; COL_VEHICLE_TYPE; COL_YEAR];
     rows := [ <[COL_BOROUGH := VStr "QUEENS"]>
                 (<[COL_VEHICLE_TYPE := VStr " Sedan "]>
                    (<[COL_YEAR := VInt 2021]> ∅));
               <[COL_BOROUGH := VStr " queens "]>
                 (<[COL_VEHICLE_TYPE := VNaN]>
                    (<[COL_YEAR := VInt 2022]> ∅)) ] |}.

(** ** Option lists of the layout

    [sorted_unique], the helper of [create_layout] that makes the
    option list of a dropdown from a column. *)

(** [x < y] between two cells.  Strings compare by code points and
    integers by value; NaN is a float, never less or greater than a
    number; a string and a number do not compare. *)
Definition value_lt (x y : value) : outcome bool :=
  match x, y with
  | VStr a, VStr b => Ok (String.ltb a b)
  | VInt a, VInt b => Ok (a <? b)%Z
  | VInt _, VNaN | VNaN, VInt _ | VNaN, VNaN => Ok false
  | _, _ => Raise TypeError
  end.

(** The place of [x] in an ascending list: after the elements that are
    less than [x]. *)
Fixpoint insert_sorted (x : value) (l : list value) : outcome (list value) :=
  match l with
  | [] => Ok [x]
  | y :: l' =>
      value_lt y x ≫= λ b : bool,
        if b then r ← insert_sorted x l'; Ok (y :: r) else Ok (x :: l)
  end.

(** [sorted(l)]: the ascending arrangement of [l], built by stable
    insertion.  On cells that compare with one another Python's sort
    returns the same list, and on a list with a string and a number it
    raises TypeError as this one does: no sort can place the two
    without comparing a string with a number. *)
Fixpoint sorted (l : list value) : outcome (list value) :=
  match l with
  | [] => Ok []
  | x :: l' => r ← sorted l'; insert_sorted x r
  end.

(** [series.dropna()] *)
Definition dropna (s : list value) : list value := List.filter notna s.

(** [series.unique()]: the values in order of first appearance. *)
Fixpoint unique_from (seen : list value) (s : list value) : list value :=
  match s with
  | [] => []
  | x :: s' =>
      if bool_decide (x ∈ seen) then unique_from seen s'
      else x :: unique_from (x :: seen) s'
  end.

Definition unique (s : list value) : list value := unique_from [] s.

Definition sorted_unique (df : DataFrame) (col : string)
  : outcome (list value) :=
  if negb (has_column df col) then Ok []
  else sorted (unique (dropna (column df col))).

(** The order of the option lists: strings by code points, integers by
    value. *)
Definition value_ltb (x y : value) : bool :=
  match x, y with
  | VStr a, VStr b => String.ltb a b
  | VInt a, VInt b => (a <? b)%Z
  | _, _ => false
  end.

(** Apart from missing cells the series holds strings only, or
    integers only. *)
Definition one_kind (s : list value) : bool :=
  forallb (λ v, is_string v || negb (notna v)) s
  || forallb (λ v, is_int v || negb (notna v)) s.

(** The dropdowns of the layout whose options come from [sorted_unique]
    and whose criterion is tested with [isin]: the column label the
    layout passes to [sorted_unique], and the argument of
    [apply_filters] that filters on that column. *)
Definition OPTION_CRITERIA
  : list (string * (option (list value) → FilterArgs → FilterArgs)) :=
  [("VEHICLE_TYPE_CODE_1", set_vehicle_types);
   ("CONTRIBUTING_FACTOR_VEHICLE_1", set_factors);
   ("PERSON_TYPE", set_person_types);
   ("PERSON_INJURY", set_injuries)].

(** * Properties of the parser *)

Example parse_docstring :
  parse_search_query "manhattan 2021 speed"
  = Ok (parsed (PStr "MANHATTAN") (PInt 2021) ["speed"]).
Proof. vm_compute. reflexivity. Qed.


Section ParserFacts.

Implicit Types (result : gmap string pyval) (p q : string) (b y : pyval).

Lemma parsed_set_borough b b' y ks :
  <["borough" := b']> (parsed b y ks) = parsed b' y ks.
Proof.
  unfold parsed.
  rewrite (insert_insert_ne _ "borough" "keywords") by done.
  rewrite (insert_insert_ne _ "borough" "year") by done.
  by rewrite insert_insert_eq.
Qed.

Lemma parsed_set_year b y y' ks :
  <["year" := y']> (parsed b y ks) = parsed b y' ks.
Proof.
  unfold parsed.
  rewrite (insert_insert_ne _ "year" "keywords") by done.
  by rewrite insert_insert_eq.
Qed.

Lemma parsed_set_keywords b y ks ks' :
  <["keywords" := PList ks']> (parsed b y ks) = parsed b y ks'.
Proof. unfold parsed. by rewrite insert_insert_eq. Qed.

Lemma parsed_keywords b y ks : parsed b y ks !! "keywords" = Some (PList ks).
Proof. unfold parsed. by rewrite lookup_insert_eq. Qed.

Lemma fresh_result_parsed : fresh_result = parsed PNone PNone [].
Proof. reflexivity. Qed.

Lemma find_spelled (u : list N) (names : list string) :
  match find (λ n, bool_decide (u = cps n)) names with
  | Some n => u = cps n ∧ n ∈ names
  | None => u ∉ cps <$> names
  end.
Proof.
  induction names as [|n names IH]; simpl.
  - by intros ?%elem_of_nil.
  - case_bool_decide as Hn.
    + split; [done | left].
    + destruct (find _ names) as [m|].
      * destruct IH. split; [done | by right].
      * rewrite not_elem_of_cons. by split.
Qed.

Lemma is_borough_token_find p :
  is_borough_token p
  = bool_decide (is_Some (find (λ n, bool_decide (upper p = cps n)) BOROUGH_TOKENS)).
Proof.
  unfold is_borough_token.
  pose proof (find_spelled (upper p) BOROUGH_TOKENS) as H.
  destruct (find _ BOROUGH_TOKENS) as [n|].
  - destruct H as [-> Hn]. rewrite !bool_decide_eq_true_2; [done|eauto|].
    by apply list_elem_of_fmap_2.
  - rewrite !bool_decide_eq_false_2; [done| |done]. by intros [? ?].
Qed.

Lemma last_cons_default {A : Type} (x d : A) (l : list A) :
  List.last (x :: l) d = List.last l x.
Proof.
  revert x d. induction l as [|z l IH]; intros x d; [done|].
  change (List.last (x :: z :: l) d) with (List.last (z :: l) d).
  by rewrite !IH.
Qed.

(** One loop iteration on a result with the three keys. *)
Lemma parse_token_parsed b y ks p :
  parse_token (parsed b y ks) p
  = Ok (if is_borough_token p then parsed (borough_value p) y ks
        else if four_digits p then
          if four_ascii_digits p
          then parsed b (PInt (digits_value 0 p)) ks
          else parsed b y ks
        else parsed b y (ks ++ [p])).
Proof.
  rewrite is_borough_token_find.
  unfold parse_token, borough_value.
  destruct (find _ BOROUGH_TOKENS) as [n|].
  - rewrite bool_decide_eq_true_2 by eauto. by rewrite parsed_set_borough.
  - rewrite bool_decide_eq_false_2 by (by intros [? ?]).
    unfold four_digits, four_ascii_digits, int.
    destruct (isdigit p); simpl.
    + destruct (len p =? 4)%nat; simpl.
      * destruct (all_chars char_isdecimal p); simpl.
        -- by rewrite parsed_set_year.
        -- done.
      * unfold append_keyword.
        by rewrite parsed_keywords, parsed_set_keywords.
    + unfold append_keyword.
      by rewrite parsed_keywords, parsed_set_keywords.
Qed.

Lemma borough_of_cons b p parts :
  borough_of b (p :: parts)
  = borough_of (if is_borough_token p then borough_value p else b) parts.
Proof.
  unfold borough_of. cbn [List.filter].
  destruct (is_borough_token p); [|done].
  rewrite fmap_cons. apply last_cons_default.
Qed.

Lemma year_of_cons y p parts :
  year_of y (p :: parts)
  = year_of (if is_year_token p then PInt (digits_value 0 p) else y) parts.
Proof.
  unfold year_of. cbn [List.filter].
  destruct (is_year_token p); [|done].
  rewrite fmap_cons. apply last_cons_default.
Qed.

Lemma keywords_of_cons p parts :
  keywords_of (p :: parts)
  = if is_keyword_token p then p :: keywords_of parts else keywords_of parts.
Proof. reflexivity. Qed.

Lemma all_decimal_isdigit s :
  all_chars char_isdecimal s = true → all_chars char_isdigit s = true.
Proof.
  induction s as [|c s IH]; simpl; [done|].
  intros [Hc Hs]%andb_true_iff. unfold char_isdigit. rewrite Hc. simpl. auto.
Qed.

Lemma four_ascii_digits_four_digits p :
  four_ascii_digits p = true → four_digits p = true.
Proof.
  unfold four_ascii_digits, four_digits, isdigit.
  intros [Hl Hd]%andb_true_iff. rewrite Hl, andb_true_r.
  destruct p; [done|]. by apply all_decimal_isdigit.
Qed.

(** The whole loop, from any result with the three keys. *)
Lemma parse_tokens_parsed parts : ∀ b y ks,
  parse_tokens (parsed b y ks) parts
  = Ok (parsed (borough_of b parts) (year_of y parts) (ks ++ keywords_of parts)).
Proof.
  induction parts as [|p parts IH]; intros b y ks.
  - simpl. unfold keywords_of. simpl. by rewrite app_nil_r.
  - cbn [parse_tokens]. rewrite parse_token_parsed.
    rewrite borough_of_cons, year_of_cons, keywords_of_cons.
    unfold is_year_token, is_keyword_token.
    destruct (is_borough_token p); cbn [negb andb mbind outcome_bind bind].
    + apply IH.
    + destruct (four_digits p) eqn:Hd; cbn [negb].
      * destruct (four_ascii_digits p); apply IH.
      * destruct (four_ascii_digits p) eqn:Ha.
        { apply four_ascii_digits_four_digits in Ha. congruence. }
        rewrite IH. by rewrite <- app_assoc.
Qed.

Lemma lstrip_spaces q : all_chars char_isspace q = true → lstrip q = EmptyString.
Proof.
  induction q as [|c q IH]; simpl; [done|].
  intros [-> Hq]%andb_true_iff. auto.
Qed.

Lemma borough_value_typed p :
  borough_value p = PNone ∨ ∃ s, borough_value p = PStr s.
Proof. unfold borough_value. destruct (find _ _); eauto. Qed.

Lemma borough_of_typed parts : ∀ b,
  (b = PNone ∨ ∃ s, b = PStr s) →
  borough_of b parts = PNone ∨ ∃ s, borough_of b parts = PStr s.
Proof.
  induction parts as [|p parts IH]; intros b Hb; [done|].
  rewrite borough_of_cons. apply IH.
  destruct (is_borough_token p); [apply borough_value_typed | done].
Qed.

Lemma year_of_typed parts : ∀ y,
  (y = PNone ∨ ∃ n, y = PInt n) →
  year_of y parts = PNone ∨ ∃ n, year_of y parts = PInt n.
Proof.
  induction parts as [|p parts IH]; intros y Hy; [done|].
  rewrite year_of_cons. apply IH.
  destruct (is_year_token p); eauto.
Qed.

End ParserFacts.

(** ** The parser on whole queries *)

(** What [parse_search_query] returns, for every query. *)
Lemma parse_search_query_eq q :
  parse_search_query q
  = Ok match q with
       | EmptyString => ∅
       | _ => parsed (borough_of PNone (split (strip q)))
                     (year_of PNone (split (strip q)))
                     (keywords_of (split (strip q)))
       end.
Proof.
  destruct q as [|c q]; [done|].
  unfold parse_search_query. rewrite fresh_result_parsed.
  by rewrite parse_tokens_parsed.
Qed.

(** C4: for the query "staten island 2019" the parser returns borough
    "STATEN ISLAND" and year 2019, and the keyword list holds the token
    "island": the second word of the borough name is not consumed. *)
Theorem parse_staten_island_2019 :
  parse_search_query "staten island 2019"
  = Ok (parsed (PStr "STATEN ISLAND") (PInt 2019) ["island"]).
Proof. vm_compute. reflexivity. Qed.

(** C6, as claimed, fails: the empty query gives the empty dictionary,
    a blank query gives a dictionary with the three keys, and the two
    differ (only the second has a keyword list). *)
Lemma parse_empty_differs_from_blank :
  parse_search_query "" = Ok ∅
  ∧ parse_search_query "   " = Ok (parsed PNone PNone [])
  ∧ (∅ : gmap string pyval) !! "keywords" = None
  ∧ parsed PNone PNone [] !! "keywords" = Some (PList [])
  ∧ parse_search_query "" ≠ parse_search_query "   ".
Proof.
  assert (parse_search_query "   " = Ok (parsed PNone PNone [])) as Hb
    by (vm_compute; reflexivity).
  split_and!; [done | done | done | apply parsed_keywords |].
  rewrite Hb. intros [= H].
Qed.

(** C6, amended: [parse_search_query] never raises.  On the empty
    string it returns the empty dictionary, without any key.  On every
    other string it returns a dictionary with exactly the keys borough
    (None or a string), year (None or an integer) and keywords (a list
    of strings); when the string is blank these are None, None and the
    empty list. *)
Theorem parse_search_query_total q :
  ∃ d, parse_search_query q = Ok d
    ∧ (q = EmptyString → d = ∅)
    ∧ (q ≠ EmptyString →
         ∃ b y ks, d = parsed b y ks
           ∧ (b = PNone ∨ ∃ s, b = PStr s)
           ∧ (y = PNone ∨ ∃ n, y = PInt n))
    ∧ (q ≠ EmptyString → all_chars char_isspace q = true →
         d = parsed PNone PNone []).
Proof.
  eexists. split; [apply parse_search_query_eq|].
  destruct q as [|c q]; split_and!; try done.
  - intros _. do 3 eexists. split; [done|].
    split; [apply borough_of_typed | apply year_of_typed]; auto.
  - intros _ Hsp. unfold strip. by rewrite (lstrip_spaces _ Hsp).
Qed.

(** C7, as claimed, fails: in the query "a ²²²² b" the token "²²²²" is
    no borough token and is not made of four ASCII digits, yet it is
    not among the keywords; it is lost. *)
Lemma superscript_token_discarded :
  split (strip ("a " +:+ sup2222 +:+ " b")) = ["a"; sup2222; "b"]
  ∧ is_borough_token sup2222 = false
  ∧ four_ascii_digits sup2222 = false
  ∧ parse_search_query ("a " +:+ sup2222 +:+ " b")
    = Ok (parsed PNone PNone ["a"; "b"]).
Proof. split_and!; vm_compute; reflexivity. Qed.

(** C7, amended: of the tokens that are no borough token, one made of
    exactly four ASCII digits is read as the year (the last such token
    stands); one made of exactly four digits in the sense of
    [str.isdigit] that [int] does not read, such as four superscript
    digits, is discarded; every other one is appended to the keywords
    unchanged, in input order. *)
Theorem parse_search_query_tokens q :
  ∃ b, parse_search_query q
       = Ok match q with
            | EmptyString => ∅
            | _ => parsed b
                     (List.last
                        ((λ p, PInt (digits_value 0 p))
                           <$> List.filter
                                 (λ p, negb (is_borough_token p)
                                       && four_ascii_digits p)
                                 (split (strip q)))
                        PNone)
                     (List.filter
                        (λ p, negb (is_borough_token p)
                              && negb (isdigit p && (len p =? 4)%nat))
                        (split (strip q)))
            end.
Proof. eexists. apply parse_search_query_eq. Qed.

(** * Properties of the filters *)

Section FrameFacts.

Implicit Types (df d : DataFrame) (r : gmap string value) (col : string).
Implicit Types (keep f g : gmap string value → bool).

Lemma select_fmap {A : Type} (f : A → bool) (l : list A) :
  select l (f <$> l) = List.filter f l.
Proof.
  induction l as [|x l IH]; [done|].
  rewrite fmap_cons. cbn [select List.filter]. by rewrite IH.
Qed.

Lemma take_fmap df f : take df (f <$> rows df) = restrict df f.
Proof. unfold take, restrict. by rewrite select_fmap. Qed.

Lemma filter_all {A : Type} (l : list A) : List.filter (λ _, true) l = l.
Proof. induction l as [|x l IH]; simpl; [done|]. by rewrite IH. Qed.

Lemma filter_none {A : Type} (l : list A) : List.filter (λ _, false) l = [].
Proof. induction l as [|x l IH]; simpl; done. Qed.

Lemma filter_filter {A : Type} (f g : A → bool) (l : list A) :
  List.filter g (List.filter f l) = List.filter (λ x, f x && g x) l.
Proof.
  induction l as [|x l IH]; simpl; [done|].
  destruct (f x); simpl; [destruct (g x)|]; by rewrite IH.
Qed.

Lemma filter_pointwise {A : Type} (f g : A → bool) (l : list A) :
  (∀ x, f x = g x) → List.filter f l = List.filter g l.
Proof. intros H. induction l as [|x l IH]; simpl; [done|]. by rewrite H, IH. Qed.

Lemma restrict_all df : restrict df (λ _, true) = df.
Proof. destruct df. unfold restrict. simpl. by rewrite filter_all. Qed.

Lemma restrict_restrict df f g :
  restrict (restrict df f) g = restrict df (λ r, f r && g r).
Proof. unfold restrict. simpl. by rewrite filter_filter. Qed.

Lemma restrict_pointwise df f g :
  (∀ r, f r = g r) → restrict df f = restrict df g.
Proof. intros H. unfold restrict. by rewrite (filter_pointwise f g). Qed.

Lemma restrict_swap df f g :
  restrict (restrict df f) g = restrict (restrict df g) f.
Proof.
  rewrite !restrict_restrict. apply restrict_pointwise.
  intros r. apply andb_comm.
Qed.

Lemma has_column_restrict df f col :
  has_column (restrict df f) col = has_column df col.
Proof. reflexivity. Qed.

Lemma isin_column df col vs :
  isin (column df col) vs = member_row col vs <$> rows df.
Proof. unfold isin, column. by rewrite <- list_fmap_compose. Qed.

Lemma isin_filter_restrict df crit col :
  isin_filter df crit col = restrict df (keep_isin df crit col).
Proof.
  unfold isin_filter, keep_isin, in_force.
  destruct (truthy crit && has_column df col).
  - by rewrite isin_column, take_fmap.
  - by rewrite restrict_all.
Qed.

Lemma keep_isin_restrict df f crit col :
  keep_isin (restrict df f) crit col = keep_isin df crit col.
Proof. reflexivity. Qed.

Lemma isin_filter_restricted df f crit col :
  isin_filter (restrict df f) crit col
  = restrict df (λ r, f r && keep_isin df crit col r).
Proof.
  by rewrite isin_filter_restrict, restrict_restrict, keep_isin_restrict.
Qed.

Lemma exact_steps_restrict df a :
  exact_steps df a = restrict df (keep_exact df a).
Proof.
  unfold exact_steps. cbv zeta.
  rewrite (isin_filter_restrict df). by rewrite !isin_filter_restricted.
Qed.

Lemma keep_exact_restrict df f a :
  keep_exact (restrict df f) a = keep_exact df a.
Proof. reflexivity. Qed.

End FrameFacts.

Section StepFacts.

Context {pv : Pandas}.

Implicit Types (df d : DataFrame) (r : gmap string value) (col text : string).
Implicit Types (a : FilterArgs) (f g k : gmap string value → bool).

(** [apply_filters] is its three parts in sequence. *)
Lemma apply_filters_steps df a :
  apply_filters df a
  = d ← borough_step df (boroughs a);
    search_step (exact_steps d a) (search_text a).
Proof. reflexivity. Qed.

(** *** The borough step *)

Lemma upper_all_strings (bs : list string) :
  upper_all (VStr <$> bs) = Ok (upper <$> bs).
Proof.
  induction bs as [|b bs IH]; [done|].
  rewrite !fmap_cons. cbn [upper_all value_upper]. rewrite IH. reflexivity.
Qed.

Lemma isin_upper_column df col ups :
  isin_upper (str_upper (column df col)) ups
  = upper_member_row col ups <$> rows df.
Proof.
  unfold isin_upper, str_upper, column. rewrite <- !list_fmap_compose.
  apply list_fmap_ext. intros _ r _. unfold upper_member_row. simpl.
  by destruct (cell r col).
Qed.

Lemma str_accessor_same (s s' : list value) :
  str_accessor s = Ok s' → s' = s.
Proof.
  unfold str_accessor. destruct (List.filter notna s); [congruence|].
  destruct (forallb _ _); congruence.
Qed.

Lemma borough_step_frame df bs d :
  borough_step df bs = Ok d → ∃ f, d = restrict df f.
Proof.
  unfold borough_step.
  destruct (truthy bs && has_column df COL_BOROUGH).
  - destruct (upper_all (elems bs)) as [ups| |]; [|done..].
    cbn [mbind outcome_bind bind].
    destruct (str_accessor _) as [s| |] eqn:Hs; [|done..].
    apply str_accessor_same in Hs as ->.
    cbn [mbind outcome_bind bind]. intros [= <-].
    rewrite isin_upper_column, take_fmap. eauto.
  - intros [= <-]. exists (λ _, true). by rewrite restrict_all.
Qed.

Lemma borough_step_strings df (bs : list string) :
  str_accessor (column df COL_BOROUGH) = Ok (column df COL_BOROUGH) →
  borough_step df (Some (VStr <$> bs)) = Ok (restrict df (keep_borough df bs)).
Proof.
  intros Hs. unfold borough_step, keep_borough, in_force.
  destruct (truthy _ && has_column df COL_BOROUGH).
  - change (elems (Some (VStr <$> bs))) with (VStr <$> bs).
    rewrite upper_all_strings, Hs.
    cbn [mbind outcome_bind bind].
    by rewrite isin_upper_column, take_fmap.
  - by rewrite restrict_all.
Qed.

Lemma borough_step_absent df bs :
  has_column df COL_BOROUGH = false → borough_step df bs = Ok df.
Proof. intros H. unfold borough_step. by rewrite H, andb_false_r. Qed.

(** *** The search step *)

Lemma zip_with_fmap {A : Type} (g h : A → bool) (l : list A) :
  zip_with andb (g <$> l) (h <$> l) = (λ x, g x && h x) <$> l.
Proof. induction l as [|x l IH]; [done|]. rewrite !fmap_cons. simpl. by rewrite IH. Qed.

Lemma replicate_fmap {A : Type} (l : list A) :
  replicate (length l) true = (λ _, true) <$> l.
Proof. induction l as [|x l IH]; [done|]. simpl. by rewrite IH. Qed.

Lemma str_contains_column df col text :
  str_contains (str_lower (astype_str (column df col))) text
  = if regex_plain text then Ok (cell_contains text col <$> rows df) else Regex.
Proof.
  unfold str_contains, str_lower, astype_str, column.
  destruct (regex_plain text); [|done].
  rewrite <- !list_fmap_compose. f_equal.
  apply list_fmap_ext. intros _ r _. cbv beta delta [compose cell_contains].
  by destruct (str_of (cell r col)).
Qed.

(** The loop over the searched columns: with a plain text, or when the
    frame has none of the columns, the mask keeps the rows in which
    every column at hand contains the text. *)
Lemma search_mask_eq df text cols : ∀ g,
  search_mask df text cols (g <$> rows df)
  = if regex_plain text || forallb (λ c, negb (has_column df c)) cols
    then Ok ((λ r, g r && forallb (λ c, cell_contains text c r)
                            (List.filter (has_column df) cols))
               <$> rows df)
    else Regex.
Proof.
  induction cols as [|col cols IH]; intros g.
  - cbn [search_mask forallb List.filter]. rewrite orb_true_r. f_equal.
    apply list_fmap_ext. intros _ r _. by rewrite andb_true_r.
  - cbn [search_mask forallb List.filter].
    destruct (has_column df col); cbn [negb andb].
    + rewrite str_contains_column, orb_false_r.
      destruct (regex_plain text); cbn [mbind outcome_bind bind orb]; [|done].
      rewrite zip_with_fmap, IH. cbn [orb forallb]. f_equal.
      apply list_fmap_ext. intros _ r _. by rewrite andb_assoc.
    + cbn [mbind outcome_bind bind]. apply IH.
Qed.

Lemma lower_empty s : lower s = EmptyString → s = EmptyString.
Proof. by destruct s. Qed.

(** Whether the search can be decided here: the text is plain, or no
    searched column is at hand. *)
Lemma search_step_eq d o :
  search_step d o
  = if blank_search o then Ok d
    else if regex_plain (lower (strip (default EmptyString o)))
            || forallb (λ c, negb (has_column d c)) SEARCHED
    then Ok (restrict d (search_all d (lower (strip (default EmptyString o)))))
    else Regex.
Proof.
  destruct o as [[|c s]|]; [done| |done].
  unfold search_step, blank_search.
  change (default EmptyString (Some (String c s))) with (String c s).
  set (q := String c s). cbv zeta.
  destruct (lower (strip q)) as [|c' t] eqn:Ht.
  - apply lower_empty in Ht. by rewrite bool_decide_eq_true_2.
  - rewrite bool_decide_eq_false_2 by (intros E; by rewrite E in Ht).
    rewrite replicate_fmap, search_mask_eq.
    destruct (_ || _); cbn [mbind outcome_bind bind]; [|done].
    by rewrite take_fmap.
Qed.

(** Filtering rows before the search, or after it, is the same. *)
Lemma search_step_restrict d k o :
  search_step (restrict d k) o = (λ x, restrict x k) <$> search_step d o.
Proof.
  rewrite !search_step_eq. destruct (blank_search o); [done|].
  change (has_column (restrict d k)) with (has_column d).
  destruct (_ || _); [|done].
  cbn [fmap outcome_fmap bind]. f_equal.
  change (search_all (restrict d k)) with (search_all d).
  apply restrict_swap.
Qed.

(** *** Adding one criterion to a call *)

Lemma apply_filters_refine df a a' k :
  boroughs a' = boroughs a →
  search_text a' = search_text a →
  (∀ r, keep_exact df a' r = keep_exact df a r && k r) →
  apply_filters df a' = (λ d, restrict d k) <$> apply_filters df a.
Proof.
  intros Hb Hs Hk. rewrite !apply_filters_steps, Hb, Hs.
  destruct (borough_step df (boroughs a)) as [d1| |] eqn:H1; [|done..].
  apply borough_step_frame in H1 as [f ->].
  cbn [mbind outcome_bind bind].
  rewrite !exact_steps_restrict, !restrict_restrict.
  rewrite <- search_step_restrict, restrict_restrict. f_equal.
  apply restrict_pointwise. intros r.
  change (keep_exact (restrict df f)) with (keep_exact df).
  by rewrite Hk, andb_assoc.
Qed.

Lemma apply_filters_search df a o :
  apply_filters df (set_search_text o a)
  = d ← apply_filters df (set_search_text None a); search_step d o.
Proof.
  rewrite !apply_filters_steps. cbn [boroughs search_text set_search_text].
  destruct (borough_step df (boroughs a)) as [d1| |]; done.
Qed.

Lemma apply_filters_boroughs df a (bs : list string) :
  str_accessor (column df COL_BOROUGH) = Ok (column df COL_BOROUGH) →
  apply_filters df (set_boroughs (Some (VStr <$> bs)) a)
  = (λ d, restrict d (keep_borough df bs))
      <$> apply_filters df (set_boroughs None a).
Proof.
  intros Hs. rewrite !apply_filters_steps.
  cbn [boroughs search_text set_boroughs].
  rewrite (borough_step_strings _ _ Hs).
  change (borough_step df None) with (Ok df : outcome DataFrame).
  cbn [mbind outcome_bind bind].
  rewrite !exact_steps_restrict, restrict_restrict.
  rewrite <- search_step_restrict, restrict_restrict. f_equal.
  apply restrict_pointwise. intros r. apply andb_comm.
Qed.

End StepFacts.

Section FilterFacts.

Context {pv : Pandas}.

Implicit Types (df d : DataFrame) (r : gmap string value) (col text : string).
Implicit Types (a : FilterArgs) (k : gmap string value → bool).

Lemma fmap_restrict_all (m : outcome DataFrame) k :
  (∀ r, k r = true) → (λ d, restrict d k) <$> m = m.
Proof.
  intros Hk. destruct m as [d| |]; [|done..].
  cbn [fmap outcome_fmap bind]. f_equal.
  rewrite (restrict_pointwise d k (λ _, true)) by done. apply restrict_all.
Qed.

(** A call returns a frame with the columns it was given. *)
Lemma apply_filters_columns df a d :
  apply_filters df a = Ok d → ∃ k, d = restrict df k.
Proof.
  rewrite apply_filters_steps.
  destruct (borough_step df (boroughs a)) as [d1| |] eqn:H1; [|done..].
  apply borough_step_frame in H1 as [f ->].
  cbn [mbind outcome_bind bind].
  rewrite exact_steps_restrict, restrict_restrict, search_step_eq.
  destruct (blank_search _); [intros [= <-]; eauto|].
  destruct (_ || _); [|done]. intros [= <-].
  rewrite restrict_restrict. eauto.
Qed.

Lemma apply_filters_blank df a :
  blank_search (search_text a) = true →
  apply_filters df (set_boroughs None a) = Ok (restrict df (keep_exact df a)).
Proof.
  intros Hb. rewrite apply_filters_steps.
  cbn [boroughs search_text set_boroughs].
  change (borough_step df None) with (Ok df : outcome DataFrame).
  cbn [mbind outcome_bind bind].
  rewrite search_step_eq, Hb. by rewrite exact_steps_restrict.
Qed.

Lemma has_column_false df col : col ∉ columns df → has_column df col = false.
Proof. intros H. by apply bool_decide_eq_false_2. Qed.

Lemma keep_isin_absent df crit col r :
  has_column df col = false → keep_isin df crit col r = true.
Proof. intros H. unfold keep_isin, in_force. by rewrite H, andb_false_r. Qed.

Lemma keep_isin_none df col r : keep_isin df None col r = true.
Proof. reflexivity. Qed.

Lemma search_mask_skip df text col (cols : list string) : ∀ mask,
  has_column df col = false →
  search_mask df text cols mask
  = search_mask df text (List.filter (λ c, negb (String.eqb c col)) cols) mask.
Proof.
  intros mask Hc. revert mask.
  induction cols as [|c cols IH]; intros mask; [done|].
  cbn [List.filter]. destruct (String.eqb_spec c col) as [->|Hne]; cbn [negb].
  - cbn [search_mask]. rewrite Hc. cbn [mbind outcome_bind bind]. apply IH.
  - cbn [search_mask]. destruct (has_column df c).
    + destruct (str_contains _ text); cbn [mbind outcome_bind bind]; [apply IH|done..].
    + cbn [mbind outcome_bind bind]. apply IH.
Qed.

Lemma search_step_absent d o :
  forallb (λ c, negb (has_column d c)) SEARCHED = true →
  search_step d o = Ok d.
Proof.
  intros H. rewrite search_step_eq, H, orb_true_r.
  destruct (blank_search o); [done|]. f_equal.
  rewrite (restrict_pointwise d _ (λ _, true)); [apply restrict_all|].
  intros r. unfold search_all, searched_in.
  assert (List.filter (has_column d) SEARCHED = []) as ->; [|done].
  revert H. generalize SEARCHED. intros l.
  induction l as [|c l IH]; [done|]. cbn [forallb List.filter].
  destruct (has_column d c); [done|]. apply IH.
Qed.

Lemma truthy_drop (o : option (list value)) :
  truthy (drop_empty_list o) = truthy o.
Proof. unfold drop_empty_list. by destruct (truthy o) eqn:E. Qed.

Lemma isin_filter_drop d (o : option (list value)) col :
  isin_filter d (drop_empty_list o) col = isin_filter d o col.
Proof.
  unfold isin_filter. rewrite truthy_drop. unfold drop_empty_list.
  by destruct (truthy o).
Qed.

Lemma borough_step_drop df (o : option (list value)) :
  borough_step df (drop_empty_list o) = borough_step df o.
Proof.
  unfold borough_step. rewrite truthy_drop. unfold drop_empty_list.
  by destruct (truthy o).
Qed.

Lemma search_step_drop d o : search_step d (drop_blank o) = search_step d o.
Proof.
  unfold drop_blank. destruct (blank_search o) eqn:E; [|done].
  by rewrite (search_step_eq d o), E.
Qed.

Lemma isin_filter_falsy d (o : option (list value)) col :
  truthy o = false → isin_filter d o col = d.
Proof. intros H. unfold isin_filter. by rewrite H. Qed.

End FilterFacts.

(** ** The free-text search *)

Ltac each_release :=
  split; [pose (pv := Before3 : Pandas) | pose (pv := From3 : Pandas)];
  cbv beta.

(** C1: on the five-row frame, with borough QUEENS and search "speed",
    exactly one row is in Queens and has "speed" in one of its searched
    columns, its contributing factor, and the call keeps no row.  The
    loop joins the columns with [mask &= ...]: a row is kept only when
    the text occurs in its contributing factor, in its vehicle type and
    in its borough alike.  So the search "speed" alone keeps no row
    either, and the search "s" keeps the one row that has an "s" in all
    three columns, not the other rows that have one in some column.
    This is so on every pandas release. *)
Theorem queens_speed_keeps_no_row :
  every_release (λ pv,
    List.filter (λ r, upper_member_row COL_BOROUGH [upper "QUEENS"] r
                      && search_any queens5 "speed" r) (rows queens5)
    = [row3 (VStr "QUEENS") (VStr "Unsafe Speed") (VStr "Sedan")]
    ∧ apply_filters queens5 queens_speed
      = Ok {| columns := columns queens5; rows := [] |}
    ∧ apply_filters queens5 (set_search_text (Some "speed") no_filters)
      = Ok {| columns := columns queens5; rows := [] |}
    ∧ apply_filters queens5 (set_search_text (Some "s") no_filters)
      = Ok {| columns := columns queens5;
              rows := [row3 (VStr "QUEENS") (VStr "Unsafe Speed")
                         (VStr "Sedan")] |}).
Proof. each_release; split_and!; vm_compute; reflexivity. Qed.

(** C5: before pandas 3.0 a missing cell is turned into the text "nan"
    by [astype(str)] before the search, so that [na=False] never sees
    it: the cell contains the search strings "nan", "na", "an", ..., and
    the frame whose only row has a missing contributing factor is
    returned whole for the search "nan".  From pandas 3.0 on the cell
    stays missing, matches no search string, and the same call returns
    no row.  The call raises on neither. *)
Theorem missing_value_matches_nan :
  (∀ r col, cell r col = VNaN →
     cell_contains (pv:=Before3) "nan" col r = true)
  ∧ apply_filters (pv:=Before3) missing_factor_frame
      (set_search_text (Some "nan") no_filters)
    = Ok missing_factor_frame
  ∧ (∀ text r col, cell r col = VNaN →
       cell_contains (pv:=From3) text col r = false)
  ∧ apply_filters (pv:=From3) missing_factor_frame
      (set_search_text (Some "nan") no_filters)
    = Ok {| columns := columns missing_factor_frame; rows := [] |}.
Proof.
  split_and!; [|vm_compute; reflexivity| |vm_compute; reflexivity].
  - intros r col H. unfold cell_contains. by rewrite H.
  - intros text r col H. unfold cell_contains. by rewrite H.
Qed.

(** ** The categorical criteria *)

Ltac keep_cases :=
  unfold keep_exact;
  cbn [years months hours injuries person_types vehicle_types factors
       set_years set_months set_hours set_injuries set_person_types
       set_vehicle_types set_factors set_boroughs set_search_text];
  rewrite ?keep_isin_none;
  repeat match goal with
         | |- context [keep_isin ?d ?c ?col ?r] =>
             destruct (keep_isin d c col r)
         end;
  reflexivity.



Lemma str_accessor_holds_string (l : list value) :
  holds_string l = true → str_accessor l = Ok l.
Proof.
  unfold holds_string, str_accessor.
  intros (v & Hv & Hs)%existsb_exists.
  assert (In v (List.filter notna l)) as Hin.
  { apply filter_In. split; [done|]. by destruct v. }
  destruct (List.filter notna l) as [|y l'] eqn:E; [done|].
  destruct (forallb is_int (y :: l')) eqn:F; [|done].
  rewrite forallb_forall in F. apply F in Hin. by destruct v.
Qed.



(** ** Criterion values are taken as they come *)

(** C8, as claimed, fails: a year list that holds a non-integer, and a
    borough list that holds the empty string, are malformed in the
    sense of the claim; the calls are not refused, they return the rows
    whose cell is a member of the list. *)
Lemma malformed_values_accepted :
  every_release (λ pv,
    malformed (set_years (Some [VStr "20x9"; VInt 2019]) no_filters) = true
    ∧ apply_filters year_frame
        (set_years (Some [VStr "20x9"; VInt 2019]) no_filters)
      = Ok {| columns := columns year_frame;
              rows := [ <[COL_YEAR := VInt 2019]>
                          (<[COL_BOROUGH := VStr "BRONX"]> ∅) ] |}
    ∧ malformed (set_boroughs (Some [VStr ""]) no_filters) = true
    ∧ apply_filters year_frame (set_boroughs (Some [VStr ""]) no_filters)
      = Ok {| columns := columns year_frame;
              rows := [ <[COL_YEAR := VInt 2020]>
                          (<[COL_BOROUGH := VStr ""]> ∅) ] |}).
Proof. each_release; split_and!; vm_compute; reflexivity. Qed.

(** C8, amended: [apply_filters] checks no criterion value, neither
    before nor during the scan.  With borough values that are strings
    (the empty string included), a borough column that holds a string
    and no free-text search, the call returns, for any values in the
    other lists (a non-integer year included), the rows that satisfy
    every criterion in force by plain membership; it raises nothing.
    The integers in the tested columns are taken below 2^53 in
    magnitude, where membership is equality on every path of [isin]. *)
Theorem criterion_values_not_validated {pv : Pandas} df a (bs : list string) :
  holds_string (column df COL_BOROUGH) = true →
  exact_cells df = true →
  blank_search (search_text a) = true →
  apply_filters df (set_boroughs (Some (VStr <$> bs)) a)
  = Ok (restrict df (λ r, keep_borough df bs r && keep_exact df a r)).
Proof.
  intros Hs%str_accessor_holds_string _ Hb.
  rewrite (apply_filters_boroughs _ _ _ Hs), (apply_filters_blank _ _ Hb).
  cbn [fmap outcome_fmap bind]. f_equal.
  rewrite restrict_restrict. apply restrict_pointwise.
  intros r. apply andb_comm.
Qed.

Lemma criterion_values_not_validated_witness :
  every_release (λ pv,
    holds_string (column year_frame COL_BOROUGH) = true
    ∧ exact_cells year_frame = true
    ∧ blank_search
        (search_text (set_years (Some [VStr "20x9"; VInt 2020]) no_filters))
      = true
    ∧ apply_filters year_frame
        (set_boroughs (Some (VStr <$> [""]))
           (set_years (Some [VStr "20x9"; VInt 2020]) no_filters))
      = Ok (restrict year_frame
              (λ r, keep_borough year_frame [""] r
                    && keep_exact year_frame
                         (set_years (Some [VStr "20x9"; VInt 2020])
                            no_filters) r))).
Proof.
  each_release.
  all: split; [by vm_compute|]; split; [by vm_compute|];
    split; [by vm_compute|].
  all: apply (criterion_values_not_validated year_frame
                (set_years (Some [VStr "20x9"; VInt 2020]) no_filters) [""]);
    by vm_compute.
Defined.

(** ** Absent columns and empty criteria *)

Lemma set_boroughs_absent {pv : Pandas} df a :
  COL_BOROUGH ∉ columns df →
  apply_filters df a = apply_filters df (set_boroughs None a).
Proof.
  intros H%has_column_false. rewrite !apply_filters_steps.
  by rewrite !(borough_step_absent _ _ H).
Qed.

Lemma refine_noop {pv : Pandas} df a a' :
  boroughs a' = boroughs a →
  search_text a' = search_text a →
  (∀ r, keep_exact df a' r = keep_exact df a r) →
  apply_filters df a' = apply_filters df a.
Proof.
  intros Hb Hs Hk.
  rewrite (apply_filters_refine df a a' (λ _, true)); [|done..|].
  - by apply fmap_restrict_all.
  - intros r. by rewrite Hk, andb_true_r.
Qed.

Ltac absent_case H :=
  apply refine_noop; [done..|]; intros r; unfold keep_exact;
  cbn [years months hours injuries person_types vehicle_types factors
       set_years set_months set_hours set_injuries set_person_types
       set_vehicle_types set_factors];
  rewrite ?keep_isin_none, ?(keep_isin_absent _ _ _ _ (has_column_false _ _ H));
  reflexivity.

(** C9: a criterion whose column the frame does not have changes
    nothing: the call gives what it gives with that criterion left out,
    the same frame or the same failure, for each of the eight list
    criteria; the search loop skips a searched column that is absent,
    and with all three absent the search text changes nothing.  When
    the frame has none of the columns the call returns the frame. *)
Theorem absent_column_is_noop {pv : Pandas} df a :
  (COL_BOROUGH ∉ columns df →
     apply_filters df a = apply_filters df (set_boroughs None a))
  ∧ (COL_YEAR ∉ columns df →
       apply_filters df a = apply_filters df (set_years None a))
  ∧ (COL_MONTH ∉ columns df →
       apply_filters df a = apply_filters df (set_months None a))
  ∧ (COL_HOUR ∉ columns df →
       apply_filters df a = apply_filters df (set_hours None a))
  ∧ (COL_PERSON_INJURY ∉ columns df →
       apply_filters df a = apply_filters df (set_injuries None a))
  ∧ (COL_PERSON_TYPE ∉ columns df →
       apply_filters df a = apply_filters df (set_person_types None a))
  ∧ (COL_VEHICLE_TYPE ∉ columns df →
       apply_filters df a = apply_filters df (set_vehicle_types None a))
  ∧ (COL_FACTOR ∉ columns df →
       apply_filters df a = apply_filters df (set_factors None a))
  ∧ (∀ col text cols mask, col ∉ columns df →
       search_mask df text cols mask
       = search_mask df text
           (List.filter (λ c, negb (String.eqb c col)) cols) mask)
  ∧ (COL_FACTOR ∉ columns df → COL_VEHICLE_TYPE ∉ columns df →
     COL_BOROUGH ∉ columns df →
       apply_filters df a = apply_filters df (set_search_text None a))
  ∧ ((∀ col, col ∈ [COL_BOROUGH; COL_YEAR; COL_MONTH; COL_HOUR;
                    COL_PERSON_INJURY; COL_PERSON_TYPE; COL_VEHICLE_TYPE;
                    COL_FACTOR] → col ∉ columns df) →
       apply_filters df a = Ok df).
Proof.
  split_and!.
  - apply set_boroughs_absent.
  - intros H. absent_case H.
  - intros H. absent_case H.
  - intros H. absent_case H.
  - intros H. absent_case H.
  - intros H. absent_case H.
  - intros H. absent_case H.
  - intros H. absent_case H.
  - intros col text cols mask H. by apply search_mask_skip, has_column_false.
  - intros Hf Hv Hb. rewrite !apply_filters_steps.
    cbn [boroughs search_text set_search_text].
    destruct (borough_step df (boroughs a)) as [d1| |] eqn:H1; [|done..].
    apply borough_step_frame in H1 as [f ->].
    cbn [mbind outcome_bind bind].
    change (exact_steps (restrict df f) (set_search_text None a))
      with (exact_steps (restrict df f) a).
    rewrite exact_steps_restrict, restrict_restrict.
    cbn [search_step].
    apply search_step_absent. cbn [forallb SEARCHED].
    change (has_column (restrict df ?k)) with (has_column df).
    by rewrite !has_column_false.
  - intros H. rewrite apply_filters_steps.
    rewrite borough_step_absent by (apply has_column_false, H; set_solver).
    cbn [mbind outcome_bind bind].
    rewrite exact_steps_restrict.
    rewrite (restrict_pointwise df _ (λ _, true)), restrict_all.
    + apply search_step_absent. cbn [forallb SEARCHED].
      rewrite !has_column_false; [done|apply H; set_solver..].
    + intros r. unfold keep_exact.
      rewrite !keep_isin_absent; [done|apply has_column_false, H; set_solver..].
Qed.

(** C10: an empty list is read as an absent criterion, and so is a
    search text that is empty once trimmed; with every criterion
    absent or empty the call returns the frame it was given, the same
    rows in the same order. *)
Theorem empty_criteria_are_noops {pv : Pandas} df a :
  apply_filters df a = apply_filters df (drop_empty a)
  ∧ (all_empty a = true → apply_filters df a = Ok df).
Proof.
  split.
  - rewrite !apply_filters_steps. cbn [boroughs search_text drop_empty].
    rewrite borough_step_drop.
    destruct (borough_step df (boroughs a)) as [d1| |]; [|done..].
    cbn [mbind outcome_bind bind]. rewrite search_step_drop. f_equal.
    unfold exact_steps.
    cbn [years months hours injuries person_types vehicle_types factors
         drop_empty].
    by rewrite !isin_filter_drop.
  - unfold all_empty. rewrite !andb_true_iff, !negb_true_iff.
    intros [[[[[[[[Hb Hy] Hm] Hh] Hi] Hp] Hv] Hf] Hs].
    rewrite apply_filters_steps. unfold borough_step. rewrite Hb.
    cbn [andb mbind outcome_bind bind]. unfold exact_steps.
    rewrite !isin_filter_falsy by done.
    by rewrite search_step_eq, Hs.
Qed.

(** ** Aggregation *)

Lemma visit_pass lab (l : list (gmap string value)) : ∀ st,
  NoDup (Summary.seen st) →
  NoDup (Summary.seen (fold_left (Summary.visit lab) l st))
  ∧ (∀ v, v ∈ Summary.seen (fold_left (Summary.visit lab) l st)
          ↔ v ∈ Summary.seen st
            ∨ (v ∈ (λ r, cell r COL_COLLISION_ID) <$> l ∧ v ≠ VNaN))
  ∧ Summary.n_persons (fold_left (Summary.visit lab) l st)
    = (Summary.n_persons st + length l)%nat.
Proof.
  induction l as [|r l IH]; intros st Hnd.
  - cbn [fold_left]. split_and!; [done| |simpl; lia].
    intros v. rewrite fmap_nil. split; [auto|].
    intros [?|[[]%elem_of_nil _]]. done.
  - cbn [fold_left].
    set (id := cell r COL_COLLISION_ID).
    assert (NoDup (Summary.seen (Summary.visit lab st r))
            ∧ ∀ v, v ∈ Summary.seen (Summary.visit lab st r)
                   ↔ v ∈ Summary.seen st ∨ (v = id ∧ v ≠ VNaN)) as [Hnd' Hin].
    { cbn [Summary.visit Summary.seen]. fold id.
      destruct id eqn:Eid; cbn [notna andb].
      1,2: case_bool_decide as Hm; cbn [negb]; (split; [|intros v]).
      1,5: done.
      - split; [auto|]. intros [?|[-> _]]; done.
      - apply NoDup_cons; done.
      - rewrite elem_of_cons. split; [intros [->|?]; auto|].
        intros [?|[-> _]]; auto.
      - split; [auto|]. intros [?|[-> _]]; done.
      - apply NoDup_cons; done.
      - rewrite elem_of_cons. split; [intros [->|?]; auto|].
        intros [?|[-> _]]; auto.
      - split; [done|]. intros v. split; [auto|]. intros [?|[-> ?]]; done. }
    destruct (IH _ Hnd') as (H1 & H2 & H3). split_and!; [done| |].
    + intros v. rewrite H2, Hin, fmap_cons, elem_of_cons. fold id. tauto.
    + rewrite H3. cbn [Summary.visit Summary.n_persons length]. lia.
Qed.

(** C3: the crash count of [summarize] is the number of distinct
    collision identifiers in the frame it is given, and the person
    count is the number of rows; ten person rows over four collisions,
    two killed and three injured, give crashes 4, persons 10,
    injuries 5 and fatalities 2. *)
Theorem summarize_counts_collisions lab df :
  (∃ ids, NoDup ids
     ∧ (∀ v, v ∈ ids ↔ v ∈ column df COL_COLLISION_ID ∧ v ≠ VNaN)
     ∧ Summary.crashes (Summary.summarize lab df) = length ids)
  ∧ Summary.persons (Summary.summarize lab df) = length (rows df)
  ∧ Summary.summarize Summary.labels Summary.ten_persons
    = {| Summary.crashes := 4; Summary.persons := 10;
         Summary.injured := 5; Summary.fatalities := 2 |}.
Proof.
  pose proof (visit_pass lab (rows df)
                {| Summary.seen := []; Summary.n_persons := 0;
                   Summary.n_injured := 0; Summary.n_fatal := 0 |})
    as (H1 & H2 & H3); [apply NoDup_nil_2|].
  split_and!; [|by rewrite <- (Nat.add_0_l (length (rows df)))|done].
  eexists. split; [exact H1|]. split; [|reflexivity].
  intros v. rewrite H2. cbn [Summary.seen]. unfold column.
  rewrite elem_of_nil. tauto.
Qed.

(** * Further properties *)

(** ** Tokens *)

Section TokenFacts.

Implicit Types (s cur q p : string) (c : ascii).

Lemma all_chars_app f s c :
  all_chars f (s +:+ String c EmptyString) = all_chars f s && f c.
Proof.
  induction s as [|c' s IH]; simpl.
  - by rewrite andb_true_r.
  - by rewrite IH, andb_assoc.
Qed.

Lemma app_not_empty s c : s +:+ String c EmptyString ≠ EmptyString.
Proof. by destruct s. Qed.

(** Every token of a split is a non-empty run without white space. *)
Lemma split_from_tokens s : ∀ cur,
  no_space cur = true →
  Forall (λ t, t ≠ EmptyString ∧ no_space t = true) (split_from cur s).
Proof.
  induction s as [|c s IH]; intros cur Hcur.
  - simpl. destruct cur; [constructor|]. by repeat constructor.
  - cbn [split_from]. destruct (char_isspace c) eqn:Hc.
    + destruct cur as [|c0 cur]; [by apply IH|].
      constructor; [done|]. by apply IH.
    + apply IH. unfold no_space. rewrite all_chars_app.
      fold (no_space cur). by rewrite Hcur, Hc.
Qed.

Lemma split_tokens s :
  Forall (λ t, t ≠ EmptyString ∧ no_space t = true) (split s).
Proof. by apply split_from_tokens. Qed.

Lemma split_lstrip s : split (lstrip s) = split s.
Proof.
  unfold split. induction s as [|c s IH]; [done|].
  cbn [lstrip]. destruct (char_isspace c) eqn:Hc; [|done].
  cbn [split_from]. by rewrite Hc.
Qed.

Lemma split_from_rstrip s : ∀ cur,
  split_from cur (rstrip s) = split_from cur s.
Proof.
  induction s as [|c s IH]; intros cur; [done|].
  cbn [rstrip]. destruct (rstrip s) as [|c2 r] eqn:Hr.
  - destruct (char_isspace c) eqn:Hc; cbn [split_from]; rewrite Hc.
    + destruct cur; by rewrite <- IH.
    + by rewrite <- IH.
  - cbn [split_from]. destruct (char_isspace c).
    + destruct cur; by rewrite <- IH.
    + by rewrite <- IH.
Qed.

(** Trimming changes nothing for the split. *)
Lemma split_strip s : split (strip s) = split s.
Proof.
  unfold strip, split. rewrite split_from_rstrip. apply split_lstrip.
Qed.

End TokenFacts.

(** ** More on the parser *)

Section ParserMore.

Implicit Types (q p : string) (b y : pyval).

Lemma parsed_borough b y ks : parsed b y ks !! "borough" = Some b.
Proof.
  unfold parsed. rewrite lookup_insert_ne by done.
  rewrite lookup_insert_ne by done. apply lookup_insert_eq.
Qed.

Lemma parsed_year b y ks : parsed b y ks !! "year" = Some y.
Proof.
  unfold parsed. rewrite lookup_insert_ne by done. apply lookup_insert_eq.
Qed.

Lemma cps_inj s1 s2 : cps s1 = cps s2 → s1 = s2.
Proof.
  revert s2. induction s1 as [|c1 s1 IH]; intros [|c2 s2]; simpl; try done.
  intros [= Hc Hs]. f_equal; [|by apply IH].
  unfold ord in Hc. by rewrite <- (ascii_N_embedding c1), Hc, ascii_N_embedding.
Qed.

(** A token that spells a listed name, in any letter case, stands for
    the borough of that name. *)
Lemma borough_value_spelled p name :
  name ∈ BOROUGH_TOKENS → upper p = cps name →
  borough_value p = PStr (canonical_borough name)
  ∧ is_borough_token p = true.
Proof.
  intros Hin Hup. split.
  - unfold borough_value.
    pose proof (find_spelled (upper p) BOROUGH_TOKENS) as H.
    destruct (find _ BOROUGH_TOKENS) as [n|].
    + destruct H as [Hn _]. rewrite Hup in Hn. by apply cps_inj in Hn as <-.
    + destruct H. rewrite Hup. by apply list_elem_of_fmap_2.
  - apply bool_decide_eq_true_2. rewrite Hup. by apply list_elem_of_fmap_2.
Qed.

Lemma canonical_borough_listed name :
  name ∈ BOROUGH_TOKENS → canonical_borough name ∈ CANONICAL_BOROUGHS.
Proof.
  unfold BOROUGH_TOKENS, CANONICAL_BOROUGHS.
  rewrite !elem_of_cons, elem_of_nil.
  intros [->|[->|[->|[->|[->|[->|[]]]]]]]; vm_compute; set_solver.
Qed.

Lemma borough_value_canonical p :
  borough_value p = PNone
  ∨ ∃ name, name ∈ CANONICAL_BOROUGHS ∧ borough_value p = PStr name.
Proof.
  unfold borough_value.
  pose proof (find_spelled (upper p) BOROUGH_TOKENS) as H.
  destruct (find _ BOROUGH_TOKENS) as [n|]; [|by left].
  destruct H as [_ Hn]. right. eexists. split; [|done].
  by apply canonical_borough_listed.
Qed.

Lemma borough_of_canonical parts : ∀ b,
  (b = PNone ∨ ∃ name, name ∈ CANONICAL_BOROUGHS ∧ b = PStr name) →
  borough_of b parts = PNone
  ∨ ∃ name, name ∈ CANONICAL_BOROUGHS ∧ borough_of b parts = PStr name.
Proof.
  induction parts as [|p parts IH]; intros b Hb; [done|].
  rewrite borough_of_cons. apply IH.
  destruct (is_borough_token p); [apply borough_value_canonical | done].
Qed.

Lemma borough_of_app parts1 parts2 b :
  borough_of b (parts1 ++ parts2) = borough_of (borough_of b parts1) parts2.
Proof.
  revert b. induction parts1 as [|p parts1 IH]; intros b; [done|].
  rewrite <- app_comm_cons, !borough_of_cons. apply IH.
Qed.

Lemma borough_of_none parts b :
  Forall (λ t, is_borough_token t = false) parts → borough_of b parts = b.
Proof.
  induction 1 as [|p parts Hp _ IH]; [done|].
  by rewrite borough_of_cons, Hp.
Qed.

(** The value of four ASCII digits lies between 0 and 9999. *)
Lemma four_ascii_digits_value p :
  four_ascii_digits p = true → (0 ≤ digits_value 0 p ≤ 9999)%Z.
Proof.
  unfold four_ascii_digits, len.
  destruct p as [|c1 [|c2 [|c3 [|c4 [|c5 p]]]]]; try done.
  cbn [String.length Nat.eqb andb all_chars digits_value].
  rewrite !andb_true_iff. unfold char_isdecimal.
  intros (H1 & H2 & H3 & H4 & _).
  apply andb_true_iff in H1, H2, H3, H4.
  rewrite !N.leb_le in H1, H2, H3, H4. lia.
Qed.

Lemma year_of_range parts : ∀ y,
  (y = PNone ∨ ∃ n, (0 ≤ n ≤ 9999)%Z ∧ y = PInt n) →
  year_of y parts = PNone
  ∨ ∃ n, (0 ≤ n ≤ 9999)%Z ∧ year_of y parts = PInt n.
Proof.
  induction parts as [|p parts IH]; intros y Hy; [done|].
  rewrite year_of_cons. apply IH.
  destruct (is_year_token p) eqn:Hp; [|done]. right.
  eexists. split; [|done]. apply four_ascii_digits_value.
  unfold is_year_token in Hp. by apply andb_true_iff in Hp as [_ ?].
Qed.

Lemma keywords_of_tokens parts :
  Forall (λ t, t ≠ EmptyString ∧ no_space t = true) parts →
  Forall (λ k, k ≠ EmptyString ∧ no_space k = true
               ∧ is_borough_token k = false ∧ four_digits k = false)
    (keywords_of parts).
Proof.
  induction 1 as [|p parts [Hp1 Hp2] _ IH]; [constructor|].
  rewrite keywords_of_cons. destruct (is_keyword_token p) eqn:Hk; [|done].
  constructor; [|done]. unfold is_keyword_token in Hk.
  apply andb_true_iff in Hk as [?%negb_true_iff ?%negb_true_iff]. done.
Qed.

Lemma keywords_of_sublist parts : sublist (keywords_of parts) parts.
Proof.
  induction parts as [|p parts IH]; [constructor|].
  rewrite keywords_of_cons. destruct (is_keyword_token p); by constructor.
Qed.

End ParserMore.

(** X1: the parser reads a non-empty query through its tokens only:
    two non-empty queries with the same white-space split, however the
    tokens are spaced, give the same result. *)
Theorem parse_depends_on_tokens q q' :
  q ≠ EmptyString → q' ≠ EmptyString → split q = split q' →
  parse_search_query q = parse_search_query q'.
Proof.
  intros Hq Hq' Hs. rewrite !parse_search_query_eq, !split_strip, Hs.
  by destruct q, q'.
Qed.

Lemma parse_depends_on_tokens_witness :
  "  brooklyn   2022 pedestrian " ≠ EmptyString
  ∧ "brooklyn 2022 pedestrian" ≠ EmptyString
  ∧ parse_search_query "  brooklyn   2022 pedestrian "
    = parse_search_query "brooklyn 2022 pedestrian".
Proof.
  split; [done|]. split; [done|].
  apply parse_depends_on_tokens; [done..|]. by vm_compute.
Defined.

(** X2: the borough of a result is never a raw token: it is absent
    (empty query), None, or one of the five names MANHATTAN, BROOKLYN,
    QUEENS, BRONX, STATEN ISLAND; the listed token STATEN never comes
    out as it is. *)
Theorem parse_borough_canonical q :
  ∃ d, parse_search_query q = Ok d
    ∧ (d !! "borough" = None
       ∨ d !! "borough" = Some PNone
       ∨ ∃ name, name ∈ CANONICAL_BOROUGHS ∧ d !! "borough" = Some (PStr name)).
Proof.
  eexists. split; [apply parse_search_query_eq|].
  destruct q as [|c q]; [by left|]. right. rewrite parsed_borough.
  destruct (borough_of_canonical (split (strip (String c q))) PNone)
    as [->|(name & Hn & ->)]; eauto.
Qed.

(** X3: the year of a result is absent (empty query), None, or an
    integer between 0 and 9999; no calendar range is checked. *)
Theorem parse_year_range q :
  ∃ d, parse_search_query q = Ok d
    ∧ (d !! "year" = None
       ∨ d !! "year" = Some PNone
       ∨ ∃ n, (0 ≤ n ≤ 9999)%Z ∧ d !! "year" = Some (PInt n)).
Proof.
  eexists. split; [apply parse_search_query_eq|].
  destruct q as [|c q]; [by left|]. right. rewrite parsed_year.
  destruct (year_of_range (split (strip (String c q))) PNone)
    as [->|(n & Hn & ->)]; eauto.
Qed.

(** X4: the keywords of a result are tokens of the query, in the order
    of the query: the keyword list is a sublist of the white-space
    split of the query.  Each keyword is not empty, holds no white
    space, does not spell a borough name in any letter case, and is
    not made of four digits. *)
Theorem parse_keywords_are_tokens q :
  ∃ d, parse_search_query q = Ok d
    ∧ ∀ ks, d !! "keywords" = Some (PList ks) →
        sublist ks (split q)
        ∧ Forall (λ k, k ≠ EmptyString ∧ no_space k = true
                       ∧ is_borough_token k = false ∧ four_digits k = false)
            ks.
Proof.
  eexists. split; [apply parse_search_query_eq|].
  destruct q as [|c q]; [done|]. intros ks. rewrite parsed_keywords.
  intros [= <-]. rewrite split_strip. split.
  - apply keywords_of_sublist.
  - apply keywords_of_tokens, split_tokens.
Qed.

(** X5: when several tokens name a borough the last one stands: a
    token that spells a listed name, in any letter case, and is followed
    by no other borough token decides the borough, whatever came
    before. *)
Theorem borough_last_wins (parts1 parts2 : list string) p name :
  name ∈ BOROUGH_TOKENS → upper p = cps name →
  Forall (λ t, is_borough_token t = false) parts2 →
  ∃ y ks, parse_tokens fresh_result (parts1 ++ p :: parts2)
          = Ok (parsed (PStr (canonical_borough name)) y ks).
Proof.
  intros Hn Hup Hl2. destruct (borough_value_spelled p name Hn Hup) as [Hv Hb].
  rewrite fresh_result_parsed, parse_tokens_parsed.
  rewrite borough_of_app, borough_of_cons, Hb, borough_of_none, Hv by done.
  by eexists _, _.
Qed.

Lemma borough_last_wins_witness :
  "STATEN" ∈ BOROUGH_TOKENS
  ∧ upper "Staten" = cps "STATEN"
  ∧ Forall (λ t, is_borough_token t = false) ["2019"; "taxi"]
  ∧ ∃ y ks, parse_tokens fresh_result (["queens"; "bike"] ++ "Staten" :: ["2019"; "taxi"])
            = Ok (parsed (PStr (canonical_borough "STATEN")) y ks).
Proof.
  assert ("STATEN" ∈ BOROUGH_TOKENS) as H1 by (vm_compute; set_solver).
  assert (upper "Staten" = cps "STATEN") as H2 by (by vm_compute).
  assert (Forall (λ t, is_borough_token t = false) ["2019"; "taxi"]) as H3
    by (repeat constructor).
  split; [exact H1|]. split; [exact H2|]. split; [exact H3|].
  exact (borough_last_wins ["queens"; "bike"] ["2019"; "taxi"] "Staten"
           "STATEN" H1 H2 H3).
Defined.

(** ** More on the filters *)

Section FilterMore.

Context {pv : Pandas}.

Implicit Types (df d : DataFrame) (r : gmap string value) (col text : string).
Implicit Types (a : FilterArgs) (f g k : gmap string value → bool).

Lemma filter_sublist {A : Type} (f : A → bool) (l : list A) :
  sublist (List.filter f l) l.
Proof.
  induction l as [|x l IH]; simpl; [constructor|].
  destruct (f x); by constructor.
Qed.

Lemma filter_forall {A : Type} (f : A → bool) (l : list A) :
  Forall (λ x, f x = true) (List.filter f l).
Proof.
  induction l as [|x l IH]; simpl; [constructor|].
  destruct (f x) eqn:E; [by constructor | done].
Qed.

Lemma filter_idem {A : Type} (f : A → bool) (l : list A) :
  List.filter f (List.filter f l) = List.filter f l.
Proof.
  rewrite filter_filter. apply filter_pointwise. intros x. by destruct (f x).
Qed.

Lemma str_accessor_strings (l : list value) :
  Forall (λ v, is_string v = true) l → str_accessor l = Ok l.
Proof.
  intros H. unfold str_accessor. destruct H as [|v l Hv _]; [done|].
  destruct v; try done.
Qed.

Lemma upper_all_outcome (bs : list value) :
  if forallb is_string bs then ∃ ups, upper_all bs = Ok ups
  else upper_all bs = Raise AttributeError.
Proof.
  induction bs as [|b bs IH]; [by eexists|].
  cbn [forallb upper_all]. destruct b as [s| |]; cbn [is_string andb value_upper];
    [|done..].
  destruct (forallb is_string bs).
  - destruct IH as [ups ->]. by eexists.
  - by rewrite IH.
Qed.

(** The borough step, when it returns, keeps the rows whose borough is
    a string with a listed upper-case form. *)
Lemma borough_step_ok df bs d :
  borough_step df bs = Ok d →
  ∃ ups, d = restrict df (keep_upper df bs ups)
         ∧ (in_force df bs COL_BOROUGH = true → upper_all (elems bs) = Ok ups).
Proof.
  unfold borough_step, keep_upper, in_force.
  destruct (truthy bs && has_column df COL_BOROUGH).
  - destruct (upper_all (elems bs)) as [ups| |]; [|done..].
    cbn [mbind outcome_bind bind].
    destruct (str_accessor _) as [s| |] eqn:Hs; [|done..].
    apply str_accessor_same in Hs as ->.
    cbn [mbind outcome_bind bind]. intros [= <-].
    rewrite isin_upper_column, take_fmap. eauto.
  - intros [= <-]. exists []. by rewrite restrict_all.
Qed.

(** On a frame whose boroughs are strings the borough step returns as
    soon as the criterion values are strings. *)
Lemma borough_step_on_strings d bs ups :
  (in_force d bs COL_BOROUGH = true → upper_all (elems bs) = Ok ups) →
  (in_force d bs COL_BOROUGH = true →
     Forall (λ r, is_string (cell r COL_BOROUGH) = true) (rows d)) →
  borough_step d bs = Ok (restrict d (keep_upper d bs ups)).
Proof.
  intros Hu Hs. unfold borough_step, keep_upper.
  fold (in_force d bs COL_BOROUGH).
  destruct (in_force d bs COL_BOROUGH); [|by rewrite restrict_all].
  rewrite Hu by done. cbn [mbind outcome_bind bind].
  rewrite str_accessor_strings.
  - cbn [mbind outcome_bind bind]. by rewrite isin_upper_column, take_fmap.
  - unfold column. apply Forall_fmap. by apply Hs.
Qed.

Lemma search_step_keep d o :
  search_step d o
  = if searchable d o then Ok (restrict d (keep_search d o)) else Regex.
Proof.
  rewrite search_step_eq. unfold searchable, keep_search.
  destruct (blank_search o); [by rewrite restrict_all|].
  cbn [orb]. by destruct (_ || _).
Qed.

(** A call, part by part. *)
Lemma apply_filters_char df a :
  apply_filters df a
  = d1 ← borough_step df (boroughs a);
    if searchable df (search_text a)
    then Ok (restrict d1 (λ r, keep_exact df a r
                               && keep_search df (search_text a) r))
    else Regex.
Proof.
  rewrite apply_filters_steps.
  destruct (borough_step df (boroughs a)) as [d1| |] eqn:H1; [|done..].
  apply borough_step_frame in H1 as [f ->].
  cbn [mbind outcome_bind bind].
  rewrite search_step_keep, exact_steps_restrict.
  change (searchable (restrict ?x ?y)) with (searchable df).
  destruct (searchable df (search_text a)); [|done].
  by rewrite !restrict_restrict.
Qed.

Lemma apply_filters_borough_frame df a f :
  borough_step df (boroughs a) = Ok (restrict df f) →
  apply_filters df a
  = (λ d, restrict d f) <$> apply_filters df (set_boroughs None a).
Proof.
  intros H. rewrite !apply_filters_char, H.
  cbn [boroughs search_text set_boroughs].
  change (borough_step df None) with (Ok df : outcome DataFrame).
  cbn [mbind outcome_bind bind].
  destruct (searchable df (search_text a)); [|done].
  cbn [fmap outcome_fmap bind]. f_equal.
  rewrite !restrict_restrict. apply restrict_pointwise.
  intros r. apply andb_comm.
Qed.

Lemma narrows_fmap (m m0 : outcome DataFrame) k :
  m = (λ d, restrict d k) <$> m0 → narrows m m0.
Proof.
  intros -> d. destruct m0 as [d0| |]; [|done..].
  cbn [fmap outcome_fmap bind]. intros [= <-].
  eexists. split; [done|]. split; [done|]. apply filter_sublist.
Qed.

Lemma set_search_text_same a : set_search_text (search_text a) a = a.
Proof. by destruct a. Qed.

End FilterMore.

(** X6: a call that returns gives back the columns it was given and a
    selection of the rows it was given, in their order: no row is
    added, changed or moved. *)
Theorem apply_filters_sublist {pv : Pandas} df a d :
  apply_filters df a = Ok d →
  columns d = columns df ∧ sublist (rows d) (rows df).
Proof.
  intros [k ->]%apply_filters_columns. split; [done|]. apply filter_sublist.
Qed.

Lemma apply_filters_sublist_witness :
  every_release (λ pv,
    apply_filters queens5 queens_speed = Ok (restrict queens5 (λ _, false))
    ∧ columns (restrict queens5 (λ _, false)) = columns queens5
    ∧ sublist (rows (restrict queens5 (λ _, false))) (rows queens5)).
Proof.
  each_release.
  all: assert (apply_filters queens5 queens_speed
               = Ok (restrict queens5 (λ _, false))) as H by (by vm_compute).
  all: split; [exact H|].
  all: exact (apply_filters_sublist queens5 queens_speed _ H).
Defined.

(** X7: filtering is idempotent: applying the same criteria to the
    frame a call returned gives that frame again. *)
Theorem apply_filters_idempotent {pv : Pandas} df a d :
  apply_filters df a = Ok d → apply_filters d a = Ok d.
Proof.
  rewrite apply_filters_char.
  destruct (borough_step df (boroughs a)) as [d1| |] eqn:H1; [|done..].
  apply borough_step_ok in H1 as (ups & -> & Hups).
  cbn [mbind outcome_bind bind].
  destruct (searchable df (search_text a)) eqn:Hs; [|done].
  rewrite restrict_restrict. intros [= <-].
  set (K := λ r, keep_upper df (boroughs a) ups r
                 && (keep_exact df a r && keep_search df (search_text a) r)).
  rewrite apply_filters_char.
  rewrite (borough_step_on_strings (restrict df K) (boroughs a) ups).
  - cbn [mbind outcome_bind bind].
    change (searchable (restrict df K)) with (searchable df). rewrite Hs.
    f_equal. rewrite !restrict_restrict. apply restrict_pointwise.
    intros r. unfold K.
    change (keep_upper (restrict df ?k)) with (keep_upper df).
    change (keep_exact (restrict df ?k)) with (keep_exact df).
    change (keep_search (restrict df ?k)) with (keep_search df).
    by destruct (keep_upper _ _ _ _), (keep_exact _ _ _), (keep_search _ _ _).
  - exact Hups.
  - intros Hf. change (in_force (restrict df K)) with (in_force df) in Hf.
    cbn [rows restrict].
    eapply Forall_impl; [apply filter_forall|]. intros r. unfold K.
    intros [Hk _]%andb_true_iff. unfold keep_upper in Hk. rewrite Hf in Hk.
    unfold upper_member_row in Hk. by destruct (cell r COL_BOROUGH).
Qed.

Lemma apply_filters_idempotent_witness :
  every_release (λ pv,
    apply_filters queens5 (set_boroughs (Some [VStr "queens"]) no_filters)
    = Ok (restrict queens5 (keep_borough queens5 ["queens"]))
    ∧ apply_filters (restrict queens5 (keep_borough queens5 ["queens"]))
        (set_boroughs (Some [VStr "queens"]) no_filters)
      = Ok (restrict queens5 (keep_borough queens5 ["queens"]))).
Proof.
  each_release.
  all: assert (apply_filters queens5
                 (set_boroughs (Some [VStr "queens"]) no_filters)
               = Ok (restrict queens5 (keep_borough queens5 ["queens"]))) as H
    by (by vm_compute).
  all: split; [exact H|].
  all: exact (apply_filters_idempotent queens5 _ _ H).
Defined.

(** X8: a criterion can only narrow a result: when a call returns, the
    call without any one of its nine criteria returns too, and the rows
    of the first are rows of the second, in the same order. *)
Theorem criterion_only_narrows {pv : Pandas} df a :
  narrows (apply_filters df a) (apply_filters df (set_boroughs None a))
  ∧ narrows (apply_filters df a) (apply_filters df (set_years None a))
  ∧ narrows (apply_filters df a) (apply_filters df (set_months None a))
  ∧ narrows (apply_filters df a) (apply_filters df (set_hours None a))
  ∧ narrows (apply_filters df a) (apply_filters df (set_injuries None a))
  ∧ narrows (apply_filters df a) (apply_filters df (set_person_types None a))
  ∧ narrows (apply_filters df a) (apply_filters df (set_vehicle_types None a))
  ∧ narrows (apply_filters df a) (apply_filters df (set_factors None a))
  ∧ narrows (apply_filters df a) (apply_filters df (set_search_text None a)).
Proof.
  split_and!.
  - intros d Hd. pose proof Hd as Hd'. rewrite apply_filters_steps in Hd'.
    destruct (borough_step df (boroughs a)) as [d1| |] eqn:H1; [|done..].
    apply borough_step_frame in H1 as Hf. destruct Hf as [f ->].
    by apply (narrows_fmap _ _ f (apply_filters_borough_frame df a f H1)).
  - apply (narrows_fmap _ _ (keep_isin df (years a) COL_YEAR)).
    apply apply_filters_refine; [done..|]. intros r. keep_cases.
  - apply (narrows_fmap _ _ (keep_isin df (months a) COL_MONTH)).
    apply apply_filters_refine; [done..|]. intros r. keep_cases.
  - apply (narrows_fmap _ _ (keep_isin df (hours a) COL_HOUR)).
    apply apply_filters_refine; [done..|]. intros r. keep_cases.
  - apply (narrows_fmap _ _ (keep_isin df (injuries a) COL_PERSON_INJURY)).
    apply apply_filters_refine; [done..|]. intros r. keep_cases.
  - apply (narrows_fmap _ _ (keep_isin df (person_types a) COL_PERSON_TYPE)).
    apply apply_filters_refine; [done..|]. intros r. keep_cases.
  - apply (narrows_fmap _ _ (keep_isin df (vehicle_types a) COL_VEHICLE_TYPE)).
    apply apply_filters_refine; [done..|]. intros r. keep_cases.
  - apply (narrows_fmap _ _ (keep_isin df (factors a) COL_FACTOR)).
    apply apply_filters_refine; [done..|]. intros r. keep_cases.
  - intros d. rewrite <- (set_search_text_same a) at 1.
    rewrite apply_filters_search.
    destruct (apply_filters df (set_search_text None a)) as [d0| |] eqn:H0;
      [|done..].
    cbn [mbind outcome_bind bind]. rewrite search_step_keep.
    destruct (searchable d0 (search_text a)); [|done]. intros [= <-].
    eexists. split; [done|]. split; [done|]. apply filter_sublist.
Qed.

(** X9: a borough value that is not a string makes the call fail with
    AttributeError as soon as the frame has a borough column: the failure
    comes from [b.upper()], before any row is looked at. *)
Theorem non_string_borough_raises {pv : Pandas} df a (bs : list value) b :
  COL_BOROUGH ∈ columns df → b ∈ bs → is_string b = false →
  apply_filters df (set_boroughs (Some bs) a) = Raise AttributeError.
Proof.
  intros Hc Hb Hs. rewrite apply_filters_steps.
  cbn [boroughs set_boroughs]. unfold borough_step.
  assert (truthy (Some bs) = true) as -> by (by destruct Hb).
  unfold has_column. rewrite bool_decide_eq_true_2 by done. cbn [andb].
  change (elems (Some bs)) with bs.
  pose proof (upper_all_outcome bs) as H.
  assert (forallb is_string bs = false) as Hf.
  { apply not_true_iff_false. rewrite forallb_forall. intros Hall.
    apply list_elem_of_In in Hb. apply Hall in Hb. congruence. }
  rewrite Hf in H. by rewrite H.
Qed.

Lemma non_string_borough_raises_witness :
  every_release (λ pv,
    COL_BOROUGH ∈ columns queens5
    ∧ VInt 5 ∈ [VStr "QUEENS"; VInt 5]
    ∧ is_string (VInt 5) = false
    ∧ apply_filters queens5
        (set_boroughs (Some [VStr "QUEENS"; VInt 5]) no_filters)
      = Raise AttributeError).
Proof.
  assert (COL_BOROUGH ∈ columns queens5) as H1 by (vm_compute; set_solver).
  assert (VInt 5 ∈ [VStr "QUEENS"; VInt 5]) as H2 by (repeat constructor).
  each_release.
  all: split; [exact H1|]; split; [exact H2|]; split; [done|].
  all: exact (non_string_borough_raises queens5 no_filters _ _ H1 H2 eq_refl).
Defined.

(** X10: the search text counts up to letter case and surrounding
    white space: two texts that are equal once trimmed and lower-cased
    give the same outcome. *)
Theorem search_text_case_insensitive {pv : Pandas} df a s s' :
  lower (strip s) = lower (strip s') →
  apply_filters df (set_search_text (Some s) a)
  = apply_filters df (set_search_text (Some s') a).
Proof.
  intros H.
  rewrite (apply_filters_search df a (Some s)),
          (apply_filters_search df a (Some s')).
  destruct (apply_filters df (set_search_text None a)) as [d| |]; [|done..].
  cbn [mbind outcome_bind bind]. rewrite !search_step_eq.
  change (default EmptyString (Some s)) with s.
  change (default EmptyString (Some s')) with s'.
  rewrite <- H.
  assert (blank_search (Some s) = blank_search (Some s')) as ->; [|done].
  unfold blank_search. apply bool_decide_ext. split; intros E.
  - apply lower_empty. by rewrite <- H, E.
  - apply lower_empty. by rewrite H, E.
Qed.

Lemma search_text_case_insensitive_witness :
  every_release (λ pv,
    lower (strip "  SPEED ") = lower (strip "Speed")
    ∧ apply_filters queens5 (set_search_text (Some "  SPEED ") no_filters)
      = apply_filters queens5 (set_search_text (Some "Speed") no_filters)).
Proof.
  assert (lower (strip "  SPEED ") = lower (strip "Speed")) as H
    by (by vm_compute).
  each_release.
  all: split; [exact H|].
  all: exact (search_text_case_insensitive queens5 no_filters _ _ H).
Defined.

Lemma apply_filters_no_borough {pv : Pandas} df a :
  boroughs a = None →
  apply_filters df a
  = if searchable df (search_text a)
    then Ok (restrict df (λ r, keep_exact df a r
                               && keep_search df (search_text a) r))
    else Regex.
Proof. intros H. by rewrite apply_filters_char, H. Qed.

(** X11: without a borough criterion, two calls in sequence give the
    same outcome in either order. *)
Theorem filters_commute {pv : Pandas} df a1 a2 :
  boroughs a1 = None → boroughs a2 = None →
  (d ← apply_filters df a1; apply_filters d a2)
  = (d ← apply_filters df a2; apply_filters d a1).
Proof.
  intros H1 H2. rewrite !(apply_filters_no_borough df) by done.
  destruct (searchable df (search_text a1)) eqn:E1,
           (searchable df (search_text a2)) eqn:E2;
    cbn [mbind outcome_bind bind];
    rewrite ?apply_filters_no_borough by done;
    change (searchable (restrict df ?k)) with (searchable df);
    rewrite ?E1, ?E2; try done.
  f_equal. rewrite !restrict_restrict. apply restrict_pointwise.
  intros r.
  change (keep_exact (restrict df ?k)) with (keep_exact df).
  change (keep_search (restrict df ?k)) with (keep_search df).
  apply andb_comm.
Qed.

Lemma filters_commute_witness :
  every_release (λ pv,
    boroughs (set_search_text (Some "sedan") no_filters) = None
    ∧ boroughs (set_factors (Some [VStr "Unspecified"]) no_filters) = None
    ∧ (d ← apply_filters queens5 (set_search_text (Some "sedan") no_filters);
       apply_filters d (set_factors (Some [VStr "Unspecified"]) no_filters))
      = (d ← apply_filters queens5
               (set_factors (Some [VStr "Unspecified"]) no_filters);
         apply_filters d (set_search_text (Some "sedan") no_filters))).
Proof.
  each_release.
  all: split; [done|]; split; [done|].
  all: exact (filters_commute queens5
                (set_search_text (Some "sedan") no_filters)
                (set_factors (Some [VStr "Unspecified"]) no_filters)
                eq_refl eq_refl).
Defined.

(** ** Loading *)

Section LoadFacts.

Context {pv : Pandas}.

Implicit Types (df d : DataFrame) (r : gmap string value) (col : string).
Implicit Types (cols : list string).

(** *** Renaming *)

Lemma rename_map_lookup cols c :
  c ∈ cols → rename_map cols !! c = RENAMES !! c.
Proof.
  intros Hc. unfold rename_map. destruct (RENAMES !! c) as [n|] eqn:E.
  - by apply map_lookup_filter_Some_2.
  - apply map_lookup_filter_None. by left.
Qed.

Lemma renamed_columns_eq cols :
  renamed_columns cols = (λ c, default c (RENAMES !! c)) <$> cols.
Proof.
  unfold renamed_columns. cbv zeta. destruct (decide _) as [E|_].
  - rewrite <- (list_fmap_id cols) at 1. apply list_fmap_ext.
    intros _ c Hc%list_elem_of_lookup_2.
    by rewrite <- (rename_map_lookup cols c Hc), E, lookup_empty.
  - apply list_fmap_ext. intros _ c Hc%list_elem_of_lookup_2.
    by rewrite (rename_map_lookup cols c Hc).
Qed.

Lemma renames_settled :
  map_Forall (λ _ n, default n (RENAMES !! n) = n) RENAMES.
Proof. apply (bool_decide_unpack _). by vm_compute. Qed.

Lemma rename_settled c :
  default (default c (RENAMES !! c)) (RENAMES !! default c (RENAMES !! c))
  = default c (RENAMES !! c).
Proof.
  destruct (RENAMES !! c) as [n|] eqn:E; simpl.
  - by apply (renames_settled c n).
  - by rewrite E.
Qed.

Lemma variant_labels_renamed :
  Forall (λ c, default c (RENAMES !! c) ≠ c) VARIANT_LABELS.
Proof. apply (bool_decide_unpack _). by vm_compute. Qed.

(** *** Cleaning *)

Lemma lstrip_head s :
  lstrip s = EmptyString
  ∨ ∃ c t, lstrip s = String c t ∧ char_isspace c = false.
Proof.
  induction s as [|c s IH]; [by left|]. cbn [lstrip].
  destruct (char_isspace c) eqn:E; [done|]. right. eauto.
Qed.

Lemma rstrip_head c t :
  char_isspace c = false → ∃ u, rstrip (String c t) = String c u.
Proof.
  intros E. cbn [rstrip]. destruct (rstrip t); [rewrite E|]; eauto.
Qed.

Lemma rstrip_rstrip s : rstrip (rstrip s) = rstrip s.
Proof.
  induction s as [|c s IH]; [done|]. cbn [rstrip].
  destruct (rstrip s) as [|c2 r] eqn:E.
  - destruct (char_isspace c) eqn:Ec; [done|]. cbn [rstrip]. by rewrite Ec.
  - cbn [rstrip]. cbn [rstrip] in IH. by rewrite IH.
Qed.

Lemma strip_strip s : strip (strip s) = strip s.
Proof.
  unfold strip. destruct (lstrip_head s) as [->|(c & t & -> & Hc)]; [done|].
  destruct (rstrip_head c t Hc) as [u Hu]. rewrite Hu at 1.
  cbn [lstrip]. rewrite Hc, <- Hu. apply rstrip_rstrip.
Qed.

Lemma zip_with_fmap_same {A B C : Type} (f : A → B → C) (g : A → B)
    (l : list A) :
  zip_with f l (g <$> l) = (λ x, f x (g x)) <$> l.
Proof.
  induction l as [|x l IH]; [done|].
  rewrite !fmap_cons. cbn [zip_with]. by rewrite IH.
Qed.

Lemma clean_column_rows df col :
  clean_column df col
  = {| columns := columns df;
       rows := (λ r, if has_column df col then clean_cell col r else r)
                 <$> rows df |}.
Proof.
  unfold clean_column, assign. destruct (has_column df col) eqn:E.
  - f_equal. unfold str_strip, astype_str, column.
    rewrite <- !list_fmap_compose. apply zip_with_fmap_same.
  - destruct df. simpl. by rewrite list_fmap_id.
Qed.

Lemma clean_columns_rows cols : ∀ df d,
  columns d = columns df →
  fold_left clean_column cols d
  = {| columns := columns df; rows := clean_row df cols <$> rows d |}.
Proof.
  induction cols as [|col cols IH]; intros df d Hc.
  - simpl. destruct d. simpl in *. by rewrite Hc, list_fmap_id.
  - cbn [fold_left]. rewrite (IH df) by (by rewrite clean_column_rows).
    f_equal. rewrite clean_column_rows. cbn [rows].
    rewrite <- list_fmap_compose. apply list_fmap_ext. intros _ r _.
    unfold clean_row. cbn [fold_left compose]. unfold has_column.
    by rewrite Hc.
Qed.

Lemma clean_strings_rows df :
  clean_strings df
  = {| columns := columns df;
       rows := clean_row df STRING_COLUMNS <$> rows df |}.
Proof. by apply clean_columns_rows. Qed.

Lemma clean_row_cons df x cols r :
  clean_row df (x :: cols) r
  = clean_row df cols (if has_column df x then clean_cell x r else r).
Proof. reflexivity. Qed.

(** A cleaned row, label by label. *)
Lemma clean_row_lookup df cols : ∀ r c,
  NoDup cols →
  clean_row df cols r !! c
  = if bool_decide (c ∈ cols) && has_column df c
    then Some (text_cell (strip <$> str_of (cell r c)))
    else r !! c.
Proof.
  induction cols as [|x cols IH]; intros r c Hnd.
  - by rewrite bool_decide_eq_false_2 by (by intros ?%elem_of_nil).
  - apply NoDup_cons in Hnd as [Hx Hnd].
    rewrite clean_row_cons, IH by done. destruct (decide (c ∈ cols)) as [Hc|Hc].
    + rewrite !bool_decide_eq_true_2 by (done || by right).
      destruct (has_column df c); cbn [andb].
      * assert (c ≠ x) as Hne by (by intros ->).
        destruct (has_column df x); [|done].
        unfold clean_cell at 1, cell. by rewrite lookup_insert_ne.
      * assert (c ≠ x) as Hne by (by intros ->).
        destruct (has_column df x); [|done].
        unfold clean_cell. by rewrite lookup_insert_ne.
    + rewrite (bool_decide_eq_false_2 (c ∈ cols)) by done. cbn [andb].
      destruct (decide (c = x)) as [->|Hne].
      * rewrite bool_decide_eq_true_2 by left. cbn [andb].
        destruct (has_column df x); [|done].
        unfold clean_cell. by rewrite lookup_insert_eq.
      * rewrite bool_decide_eq_false_2 by (by intros [?|?]%elem_of_cons).
        cbn [andb]. destruct (has_column df x); [|done].
        unfold clean_cell. by rewrite lookup_insert_ne.
Qed.

Lemma string_columns_nodup : NoDup STRING_COLUMNS.
Proof. apply (bool_decide_unpack _). by vm_compute. Qed.

Lemma clean_row_cell df r c :
  c ∈ STRING_COLUMNS → c ∈ columns df →
  cell (clean_row df STRING_COLUMNS r) c
  = text_cell (strip <$> str_of (cell r c)).
Proof.
  intros H1 H2. unfold cell at 1.
  rewrite clean_row_lookup by apply string_columns_nodup.
  unfold has_column. by rewrite !bool_decide_eq_true_2.
Qed.

Lemma clean_row_clean_row df r :
  clean_row df STRING_COLUMNS (clean_row df STRING_COLUMNS r)
  = clean_row df STRING_COLUMNS r.
Proof.
  apply map_eq. intros c.
  rewrite (clean_row_lookup df STRING_COLUMNS (clean_row _ _ r))
    by apply string_columns_nodup.
  rewrite (clean_row_lookup df STRING_COLUMNS r) by apply string_columns_nodup.
  destruct (bool_decide (c ∈ STRING_COLUMNS) && has_column df c) eqn:E; [|done].
  unfold cell at 1.
  rewrite clean_row_lookup by apply string_columns_nodup. rewrite E.
  change (default VNaN (Some ?x)) with x. f_equal.
  destruct (cell r c) as [s|n|]; [| |destruct pv];
    cbn [str_of text_cell fmap option_fmap option_map];
    by rewrite ?strip_strip.
Qed.

End LoadFacts.

(** X12: renaming the column labels twice is renaming them once: a
    name that [RENAMES] maps to is never itself renamed to something
    else. *)
Theorem renamed_columns_idempotent cols :
  renamed_columns (renamed_columns cols) = renamed_columns cols.
Proof.
  rewrite !renamed_columns_eq, <- list_fmap_compose.
  apply list_fmap_ext. intros _ c _. apply rename_settled.
Qed.

(** X13: the renaming works in place, label by label: there are as
    many labels after it as before, and the label at each position is
    the name that [RENAMES] gives to the label that was there, or that
    label itself when [RENAMES] has no entry for it, so the order of
    the columns is kept.  None of the ten variant spellings is left
    among the labels. *)
Theorem renamed_columns_no_variant cols :
  length (renamed_columns cols) = length cols
  ∧ (∀ (i : nat) c, cols !! i = Some c →
       renamed_columns cols !! i = Some (default c (RENAMES !! c)))
  ∧ Forall (λ c, c ∉ VARIANT_LABELS) (renamed_columns cols).
Proof.
  rewrite renamed_columns_eq. split; [apply length_fmap|].
  split; [intros i c Hi; by rewrite list_lookup_fmap, Hi|].
  apply Forall_fmap, Forall_forall. intros c _ Hv. simpl in Hv.
  pose proof variant_labels_renamed as H. rewrite Forall_forall in H.
  apply (H _ Hv), rename_settled.
Qed.

Lemma text_cell_trimmed {pv : Pandas} (v : value) :
  (∃ s, text_cell (strip <$> str_of v) = VStr s ∧ strip s = s)
  ∨ (pv = From3 ∧ v = VNaN ∧ text_cell (strip <$> str_of v) = VNaN).
Proof.
  destruct v as [s|n|]; [left..|].
  - eexists. split; [done|]. apply strip_strip.
  - eexists. split; [done|]. apply strip_strip.
  - destruct pv; [left|by right]. eexists. split; [done|]. apply strip_strip.
Qed.

Lemma clean_strings_no_int {pv : Pandas} df col :
  col ∈ STRING_COLUMNS → col ∈ columns df →
  Forall (λ r, is_int (cell r col) = false) (rows (clean_strings df)).
Proof.
  intros H1 H2. rewrite clean_strings_rows. cbn [rows].
  apply Forall_fmap, Forall_forall. intros r _. cbv beta delta [compose].
  rewrite clean_row_cell by done.
  by destruct (text_cell_trimmed (cell r col)) as [(s & -> & _)|(_ & _ & ->)].
Qed.

(** X14: after the cleaning, every cell of a string column that the
    frame has is a string without white space at either end, with one
    exception: from pandas 3.0 on a missing cell stays missing (before
    3.0 no cell of such a column is missing any more).  A cell that
    held a string holds that string, trimmed. *)
Theorem clean_strings_cells {pv : Pandas} df col :
  col ∈ STRING_COLUMNS → col ∈ columns df →
  Forall2 (λ r r',
      (∀ s, cell r col = VStr s → cell r' col = VStr (strip s))
      ∧ ((∃ s, cell r' col = VStr s ∧ strip s = s)
         ∨ (pv = From3 ∧ cell r col = VNaN ∧ cell r' col = VNaN)))
    (rows df) (rows (clean_strings df)).
Proof.
  intros H1 H2. rewrite clean_strings_rows. cbn [rows].
  apply Forall2_fmap_r, Forall_Forall2_diag, Forall_forall. intros r _.
  cbv beta delta [compose]. rewrite clean_row_cell by done.
  destruct (text_cell_trimmed (cell r col)) as [Hs|(Hp & Hn & Hc)].
  - split; [by intros s ->|by left].
  - split; [by intros s ->|by right].
Qed.

Lemma clean_strings_cells_witness :
  every_release (λ pv,
    COL_VEHICLE_TYPE ∈ STRING_COLUMNS
    ∧ COL_VEHICLE_TYPE ∈ columns padded_frame
    ∧ Forall2 (λ r r',
          (∀ s, cell r COL_VEHICLE_TYPE = VStr s →
                cell r' COL_VEHICLE_TYPE = VStr (strip s))
          ∧ ((∃ s, cell r' COL_VEHICLE_TYPE = VStr s ∧ strip s = s)
             ∨ (pv = From3 ∧ cell r COL_VEHICLE_TYPE = VNaN
                ∧ cell r' COL_VEHICLE_TYPE = VNaN)))
        (rows padded_frame) (rows (clean_strings padded_frame))).
Proof.
  assert (COL_VEHICLE_TYPE ∈ STRING_COLUMNS) as H1 by (repeat constructor).
  assert (COL_VEHICLE_TYPE ∈ columns padded_frame) as H2
    by (repeat constructor).
  each_release.
  all: split; [exact H1|]; split; [exact H2|].
  all: exact (clean_strings_cells padded_frame COL_VEHICLE_TYPE H1 H2).
Defined.

(** X15: cleaning a cleaned frame changes nothing. *)
Theorem clean_strings_idempotent {pv : Pandas} df :
  clean_strings (clean_strings df) = clean_strings df.
Proof.
  rewrite (clean_strings_rows (clean_strings df)).
  generalize (clean_strings_rows df). generalize (clean_strings df).
  intros d ->. cbn [columns rows]. f_equal.
  rewrite <- list_fmap_compose. apply list_fmap_ext. intros _ r _.
  exact (clean_row_clean_row df r).
Qed.

(** X16: what becomes of a missing cell of a string column depends on
    the pandas release.  Before 3.0 it comes out of the cleaning as the
    string "nan", in the same row, and from then on the search text
    "nan" finds it.  From 3.0 on it stays missing, and no search text
    finds it. *)
Theorem clean_strings_missing {pv : Pandas} df col (i : nat) r :
  col ∈ STRING_COLUMNS → col ∈ columns df →
  rows df !! i = Some r → cell r col = VNaN →
  ∃ r', rows (clean_strings df) !! i = Some r'
        ∧ match pv with
          | Before3 => cell r' col = VStr "nan"
                       ∧ cell_contains "nan" col r' = true
          | From3 => cell r' col = VNaN
                     ∧ ∀ text, cell_contains text col r' = false
          end.
Proof.
  intros H1 H2 Hi Hn. rewrite clean_strings_rows. cbn [rows].
  eexists. split; [by rewrite list_lookup_fmap, Hi|].
  unfold cell_contains. rewrite clean_row_cell by done. rewrite Hn.
  by destruct pv.
Qed.

Lemma clean_strings_missing_witness :
  every_release (λ pv,
    COL_FACTOR ∈ STRING_COLUMNS
    ∧ COL_FACTOR ∈ columns missing_factor_frame
    ∧ rows missing_factor_frame !! 0%nat = Some missing_factor_row
    ∧ cell missing_factor_row COL_FACTOR = VNaN
    ∧ ∃ r', rows (clean_strings missing_factor_frame) !! 0%nat = Some r'
            ∧ match pv with
              | Before3 => cell r' COL_FACTOR = VStr "nan"
                           ∧ cell_contains "nan" COL_FACTOR r' = true
              | From3 => cell r' COL_FACTOR = VNaN
                         ∧ ∀ text, cell_contains text COL_FACTOR r' = false
              end).
Proof.
  assert (COL_FACTOR ∈ STRING_COLUMNS) as H1 by (repeat constructor).
  assert (COL_FACTOR ∈ columns missing_factor_frame) as H2
    by (repeat constructor).
  each_release.
  all: split; [exact H1|]; split; [exact H2|]; split; [done|];
    split; [done|].
  all: exact (clean_strings_missing missing_factor_frame COL_FACTOR 0
                missing_factor_row H1 H2 eq_refl eq_refl).
Defined.

(** X17: the cleaning keeps the column labels, the number of rows and
    their order, and every cell outside the five string columns. *)
Theorem clean_strings_preserves {pv : Pandas} df :
  columns (clean_strings df) = columns df
  ∧ length (rows (clean_strings df)) = length (rows df)
  ∧ ∀ col, col ∉ STRING_COLUMNS →
      (λ r, r !! col) <$> rows (clean_strings df)
      = (λ r, r !! col) <$> rows df.
Proof.
  rewrite clean_strings_rows. cbn [columns rows].
  split; [done|]. split; [apply length_fmap|].
  intros col Hc. rewrite <- list_fmap_compose. apply list_fmap_ext.
  intros _ r _. cbv beta delta [compose].
  rewrite clean_row_lookup by apply string_columns_nodup.
  by rewrite bool_decide_eq_false_2.
Qed.

Lemma str_accessor_no_int (l : list value) :
  Forall (λ v, is_int v = false) l → str_accessor l = Ok l.
Proof.
  intros H. unfold str_accessor.
  destruct (List.filter notna l) as [|y l'] eqn:E; [done|].
  assert (In y (List.filter notna l)) as Hin by (rewrite E; by left).
  apply filter_In in Hin as [Hin%list_elem_of_In _].
  rewrite Forall_forall in H. cbn [forallb]. by rewrite (H y Hin).
Qed.

(** X18: on a cleaned frame a call with string borough values and a
    search that can be decided never fails, on any pandas release: it
    returns the rows that satisfy the borough criterion, the seven list
    criteria and the search.  The frame that is cleaned holds strings
    and missing values in its string columns, and integers below 2^53
    in magnitude in the columns tested with [isin]. *)
Theorem cleaned_frame_filters {pv : Pandas} df a (bs : list string) :
  text_cells df = true → exact_cells df = true →
  searchable (clean_strings df) (search_text a) = true →
  apply_filters (clean_strings df) (set_boroughs (Some (VStr <$> bs)) a)
  = Ok (restrict (clean_strings df)
          (λ r, keep_borough (clean_strings df) bs r
                && (keep_exact (clean_strings df) a r
                    && keep_search (clean_strings df) (search_text a) r))).
Proof.
  intros _ _ Hs. rewrite apply_filters_char.
  cbn [boroughs search_text set_boroughs]. rewrite Hs.
  unfold borough_step, keep_borough.
  fold (in_force (clean_strings df) (Some (VStr <$> bs)) COL_BOROUGH).
  destruct (in_force _ _ COL_BOROUGH) eqn:Hf.
  - change (elems (Some (VStr <$> bs))) with (VStr <$> bs).
    rewrite upper_all_strings. cbn [mbind outcome_bind bind].
    rewrite str_accessor_no_int.
    + cbn [mbind outcome_bind bind].
      by rewrite isin_upper_column, take_fmap, restrict_restrict.
    + unfold column. apply Forall_fmap.
      apply (clean_strings_no_int df COL_BOROUGH); [repeat constructor|].
      apply andb_true_iff in Hf as [_ Hc%bool_decide_eq_true_1].
      by rewrite clean_strings_rows in Hc.
  - reflexivity.
Qed.

Lemma cleaned_frame_filters_witness :
  every_release (λ pv,
    text_cells padded_frame = true
    ∧ exact_cells padded_frame = true
    ∧ searchable (clean_strings padded_frame) (Some "n") = true
    ∧ apply_filters (clean_strings padded_frame)
        (set_boroughs (Some (VStr <$> ["Queens"]))
           (set_search_text (Some "n") no_filters))
      = Ok (restrict (clean_strings padded_frame)
              (λ r, keep_borough (clean_strings padded_frame) ["Queens"] r
                    && (keep_exact (clean_strings padded_frame)
                          (set_search_text (Some "n") no_filters) r
                        && keep_search (clean_strings padded_frame)
                             (Some "n") r)))).
Proof.
  each_release.
  all: split; [by vm_compute|]; split; [by vm_compute|].
  all: assert (searchable (clean_strings padded_frame) (Some "n") = true)
    as H by (by vm_compute).
  all: split; [exact H|].
  all: exact (cleaned_frame_filters padded_frame
                (set_search_text (Some "n") no_filters) ["Queens"]
                eq_refl eq_refl H).
Defined.

(** ** Option lists *)

Section SortFacts.

Implicit Types (x y z v : value) (l r s : list value).

Lemma string_compare_trans (s1 : string) : ∀ s2 s3 : string,
  String.compare s1 s2 = Lt → String.compare s2 s3 = Lt →
  String.compare s1 s3 = Lt.
Proof.
  induction s1 as [|c1 s1 IH]; intros [|c2 s2] [|c3 s3]; simpl; try done.
  unfold Ascii.compare.
  destruct (N.compare_spec (N_of_ascii c1) (N_of_ascii c2)) as [E12|L12|G12],
           (N.compare_spec (N_of_ascii c2) (N_of_ascii c3)) as [E23|L23|G23];
    try done.
  - rewrite E12, E23, N.compare_refl. apply IH.
  - rewrite E12. intros. by apply N.compare_lt_iff in L23 as ->.
  - rewrite <- E23. intros. by apply N.compare_lt_iff in L12 as ->.
  - intros. assert (N_of_ascii c1 < N_of_ascii c3) as L by lia.
    by apply N.compare_lt_iff in L as ->.
Qed.

Lemma value_ltb_trans x y z :
  value_ltb x y = true → value_ltb y z = true → value_ltb x z = true.
Proof.
  destruct x as [a| a|], y as [b|b|], z as [c|c|]; simpl; try done.
  - unfold String.ltb.
    destruct (String.compare a b) eqn:E1; try done.
    destruct (String.compare b c) eqn:E2; try done.
    by rewrite (string_compare_trans a b c).
  - rewrite !Z.ltb_lt. lia.
Qed.

Lemma value_ltb_total x y :
  is_string x && is_string y || is_int x && is_int y = true →
  value_ltb y x = false → x = y ∨ value_ltb x y = true.
Proof.
  destruct x as [a|a|], y as [b|b|]; simpl; try done; intros _.
  - unfold String.ltb. rewrite (String.compare_antisym a b).
    destruct (String.compare b a) eqn:E; simpl; try done; [|by right].
    apply String.compare_eq_iff in E. left. by subst.
  - rewrite Z.ltb_ge. intros H.
    destruct (decide (a = b)) as [->|Hne]; [by left|]. right.
    apply Z.ltb_lt. lia.
Qed.

Lemma value_ltb_irrefl x : value_ltb x x = false.
Proof.
  destruct x as [a|a|]; simpl; try done.
  - unfold String.ltb.
    destruct (String.compare a a) eqn:E; try done.
    pose proof (String.compare_antisym a a) as H. rewrite E in H. done.
  - apply Z.ltb_irrefl.
Qed.

Lemma value_lt_same_kind x y :
  is_string x && is_string y || is_int x && is_int y = true →
  value_lt x y = Ok (value_ltb x y).
Proof. by destruct x, y. Qed.

Lemma value_lt_other_kind x y :
  is_string x && is_int y || is_int x && is_string y = true →
  value_lt x y = Raise TypeError.
Proof. by destruct x, y. Qed.

(** An insertion that returns has put [x] into the list. *)
Lemma insert_sorted_perm x l r : insert_sorted x l = Ok r → r ≡ₚ x :: l.
Proof.
  revert r. induction l as [|y l IH]; intros r; simpl.
  - by intros [= <-].
  - destruct (value_lt y x) as [[]| |]; simpl; try done.
    + destruct (insert_sorted x l) as [r'| |]; simpl; try done.
      intros [= <-]. rewrite (IH r' eq_refl). apply Permutation_swap.
    + by intros [= <-].
Qed.

Lemma sorted_perm l r : sorted l = Ok r → r ≡ₚ l.
Proof.
  revert r. induction l as [|x l IH]; intros r; simpl.
  - by intros [= <-].
  - destruct (sorted l) as [r'| |]; simpl; try done.
    intros H%insert_sorted_perm. by rewrite H, (IH r' eq_refl).
Qed.

Section Kind.

(** One kind of cell: the strings, or the integers. *)
Variable K : value → bool.
Hypothesis K_kind : ∀ x y, K x = true → K y = true →
  is_string x && is_string y || is_int x && is_int y = true.

Lemma insert_sorted_kind x l :
  K x = true → Forall (λ y, K y = true) l →
  StronglySorted (λ a b, value_ltb a b = true) l → x ∉ l →
  ∃ r, insert_sorted x l = Ok r
       ∧ StronglySorted (λ a b, value_ltb a b = true) r.
Proof.
  intros Hx Hl Hs Hn. induction Hs as [|y l Hs IH Hy]; simpl.
  - eexists. split; [done|]. repeat constructor.
  - apply Forall_cons in Hl as [Hky Hl].
    apply not_elem_of_cons in Hn as [Hxy Hn].
    rewrite value_lt_same_kind by (by apply K_kind). simpl.
    destruct (value_ltb y x) eqn:E.
    + destruct (IH Hl Hn) as (r & Hr & Hsr). rewrite Hr. simpl.
      eexists. split; [done|]. constructor; [done|].
      apply insert_sorted_perm in Hr. rewrite Hr.
      by constructor.
    + eexists. split; [done|].
      destruct (value_ltb_total x y (K_kind _ _ Hx Hky) E) as [?|Hlt]; [done|].
      constructor; [by constructor|]. constructor; [done|].
      eapply Forall_impl; [exact Hy|]. intros z Hz.
      by apply (value_ltb_trans x y z).
Qed.

Lemma sorted_kind l :
  Forall (λ y, K y = true) l → NoDup l →
  ∃ r, sorted l = Ok r ∧ StronglySorted (λ a b, value_ltb a b = true) r.
Proof.
  intros Hl Hn. induction Hn as [|x l Hx Hn IH]; simpl.
  - eexists. split; [done|]. constructor.
  - apply Forall_cons in Hl as [Hkx Hl].
    destruct (IH Hl) as (r & Hr & Hs). rewrite Hr. simpl.
    pose proof (sorted_perm _ _ Hr) as Hp.
    apply insert_sorted_kind; [done| |done|].
    + by rewrite Hp.
    + by rewrite Hp.
Qed.

(** A list of one kind does not take a cell that does not compare
    with that kind. *)
Lemma sorted_other_kind x l :
  (∀ y, K y = true → value_lt y x = Raise TypeError) →
  Forall (λ y, K y = true) l → NoDup l → l ≠ [] →
  sorted (x :: l) = Raise TypeError.
Proof.
  intros Hx Hl Hn Hne. destruct (sorted_kind l Hl Hn) as (r & Hr & _).
  cbn [sorted]. rewrite Hr. cbn [mbind outcome_bind bind].
  pose proof (sorted_perm _ _ Hr) as Hp.
  destruct r as [|y r].
  - symmetry in Hp. by apply Permutation_nil_r in Hp.
  - cbn [insert_sorted]. rewrite Hx; [done|].
    rewrite <- Hp in Hl. by apply Forall_cons in Hl as [? _].
Qed.

End Kind.

Lemma unique_from_spec s : ∀ seen,
  NoDup (unique_from seen s)
  ∧ ∀ v, v ∈ unique_from seen s ↔ v ∈ s ∧ v ∉ seen.
Proof.
  induction s as [|x s IH]; intros seen; simpl.
  - split; [constructor|]. intros v. rewrite elem_of_nil. tauto.
  - case_bool_decide as Hx.
    + destruct (IH seen) as [H1 H2]. split; [done|]. intros v.
      rewrite H2, elem_of_cons. split; [tauto|].
      intros [[->|?] ?]; done.
    + destruct (IH (x :: seen)) as [H1 H2]. split.
      * constructor; [|done]. rewrite H2, elem_of_cons. tauto.
      * intros v. rewrite !elem_of_cons, H2, elem_of_cons.
        destruct (decide (v = x)) as [->|Hne]; [tauto|]. tauto.
Qed.

Lemma unique_spec s :
  NoDup (unique s) ∧ ∀ v, v ∈ unique s ↔ v ∈ s.
Proof.
  destruct (unique_from_spec s []) as [H1 H2]. split; [done|].
  intros v. fold (unique s) in H2. rewrite H2, elem_of_nil. tauto.
Qed.

Lemma dropna_spec s v : v ∈ dropna s ↔ v ∈ s ∧ v ≠ VNaN.
Proof.
  unfold dropna. rewrite !list_elem_of_In, filter_In.
  destruct v; simpl; split; intros [? ?]; split; done.
Qed.

Lemma options_spec s v : v ∈ unique (dropna s) ↔ v ∈ s ∧ v ≠ VNaN.
Proof. destruct (unique_spec (dropna s)) as [_ H]. by rewrite H, dropna_spec. Qed.

Lemma one_kind_options s :
  one_kind s = true →
  Forall (λ v, is_string v = true) (unique (dropna s))
  ∨ Forall (λ v, is_int v = true) (unique (dropna s)).
Proof.
  unfold one_kind. intros [H|H]%orb_true_iff; [left|right].
  all: apply Forall_forall; intros v [Hv Hn]%options_spec.
  all: rewrite forallb_forall in H; apply list_elem_of_In, H in Hv.
  all: by destruct v.
Qed.

Lemma sorted_strict_nodup r :
  StronglySorted (λ a b, value_ltb a b = true) r → NoDup r.
Proof.
  induction 1 as [|x r Hs IH Hx]; constructor; [|done].
  intros Hin. rewrite Forall_forall in Hx. apply Hx in Hin.
  by rewrite value_ltb_irrefl in Hin.
Qed.

Lemma strings_kind x y :
  is_string x = true → is_string y = true →
  is_string x && is_string y || is_int x && is_int y = true.
Proof. by intros -> ->. Qed.

Lemma ints_kind x y :
  is_int x = true → is_int y = true →
  is_string x && is_string y || is_int x && is_int y = true.
Proof. intros -> ->. apply orb_true_r. Qed.

(** The options of a one-kind series: sorted, and the distinct
    non-missing cells. *)
Lemma one_kind_sorted s :
  one_kind s = true →
  ∃ r, sorted (unique (dropna s)) = Ok r
       ∧ StronglySorted (λ a b, value_ltb a b = true) r
       ∧ r ≡ₚ unique (dropna s).
Proof.
  intros H. destruct (unique_spec (dropna s)) as [Hd _].
  destruct (one_kind_options s H) as [Hk|Hk].
  - destruct (sorted_kind is_string strings_kind _ Hk Hd) as (r & Hr & Hs).
    exists r. split; [done|]. split; [done|]. by apply sorted_perm.
  - destruct (sorted_kind is_int ints_kind _ Hk Hd) as (r & Hr & Hs).
    exists r. split; [done|]. split; [done|]. by apply sorted_perm.
Qed.

Lemma no_int_strings l :
  Forall (λ v, notna v = true) l → existsb is_int l = false →
  Forall (λ v, is_string v = true) l.
Proof.
  induction 1 as [|x l Hx Hl IH]; cbn [existsb]; [done|].
  intros [H1 H2]%orb_false_iff. constructor; [by destruct x|auto].
Qed.

Lemma no_string_ints l :
  Forall (λ v, notna v = true) l → existsb is_string l = false →
  Forall (λ v, is_int v = true) l.
Proof.
  induction 1 as [|x l Hx Hl IH]; cbn [existsb]; [done|].
  intros [H1 H2]%orb_false_iff. constructor; [by destruct x|auto].
Qed.

(** Sorting distinct cells, some of them strings and some integers,
    raises TypeError. *)
Lemma sorted_mixed l :
  Forall (λ v, notna v = true) l → NoDup l →
  existsb is_string l = true → existsb is_int l = true →
  sorted l = Raise TypeError.
Proof.
  induction l as [|x l IH]; [done|]. intros Hn Hd Hs Hi.
  apply Forall_cons in Hn as [Hx Hn]. apply NoDup_cons in Hd as [_ Hd].
  cbn [existsb] in Hs, Hi.
  destruct (existsb is_string l) eqn:Es, (existsb is_int l) eqn:Ei.
  - cbn [sorted]. by rewrite IH.
  - rewrite orb_false_r in Hi. apply (sorted_other_kind is_string).
    + apply strings_kind.
    + intros y Hy. apply value_lt_other_kind. by rewrite Hy, Hi.
    + by apply no_int_strings.
    + done.
    + by intros ->.
  - rewrite orb_false_r in Hs. apply (sorted_other_kind is_int).
    + apply ints_kind.
    + intros y Hy. apply value_lt_other_kind. rewrite Hy, Hs.
      apply orb_true_r.
    + by apply no_string_ints.
    + done.
    + by intros ->.
  - rewrite orb_false_r in Hs, Hi. by destruct x.
Qed.

Lemma options_notna s : Forall (λ v, notna v = true) (unique (dropna s)).
Proof. apply Forall_forall. intros v [_ Hv]%options_spec. by destruct v. Qed.

Lemma mixed_sorted s a n :
  VStr a ∈ s → VInt n ∈ s → sorted (unique (dropna s)) = Raise TypeError.
Proof.
  intros Ha Hn. destruct (unique_spec (dropna s)) as [Hd _].
  apply sorted_mixed; [apply options_notna|done|..].
  - apply existsb_exists. exists (VStr a). split; [|done].
    by apply list_elem_of_In, options_spec.
  - apply existsb_exists. exists (VInt n). split; [|done].
    by apply list_elem_of_In, options_spec.
Qed.

Lemma forallb_false {A : Type} (f : A → bool) (l : list A) :
  forallb f l = false → ∃ e : A, e ∈ l ∧ f e = false.
Proof.
  induction l as [|a l IH]; cbn [forallb]; [done|].
  destruct (f a) eqn:E; cbn [andb].
  - intros (e & ? & ?)%IH. exists e. split; [by right|done].
  - intros _. exists a. split; [by left|done].
Qed.

Lemma one_kind_false s :
  one_kind s = false → ∃ a n, VStr a ∈ s ∧ VInt n ∈ s.
Proof.
  unfold one_kind. intros [H1 H2]%orb_false_iff.
  apply forallb_false in H1 as (x & Hx & Ex).
  apply forallb_false in H2 as (y & Hy & Ey).
  destruct x as [|n|]; try done. destruct y as [a| |]; try done.
  by exists a, n.
Qed.

Lemma one_kind_mixed s a n : VStr a ∈ s → VInt n ∈ s → one_kind s = false.
Proof.
  intros Ha Hn. destruct (one_kind s) eqn:E; [|done].
  apply one_kind_sorted in E as (r & Hr & _).
  by rewrite (mixed_sorted s a n) in Hr.
Qed.

End SortFacts.

Section OptionFacts.

Context {pv : Pandas}.

Lemma sorted_unique_present df col :
  has_column df col = true →
  sorted_unique df col = sorted (unique (dropna (column df col))).
Proof. unfold sorted_unique. by intros ->. Qed.

Lemma sorted_unique_absent df col :
  has_column df col = false → sorted_unique df col = Ok [].
Proof. unfold sorted_unique. by intros ->. Qed.

(** An option of a column is the cell of some row: the frame has the
    column and a row with that cell. *)
Lemma sorted_unique_elem df col opts v :
  sorted_unique df col = Ok opts → v ∈ opts →
  has_column df col = true ∧ v ≠ VNaN
  ∧ ∃ r, r ∈ rows df ∧ cell r col = v.
Proof.
  destruct (has_column df col) eqn:Hc.
  - rewrite sorted_unique_present by done. intros Hp%sorted_perm Hv.
    rewrite Hp in Hv. apply options_spec in Hv as [Hv Hn].
    split; [done|]. split; [done|].
    apply list_elem_of_fmap in Hv as (r & -> & Hr). by exists r.
  - rewrite sorted_unique_absent by done. intros [= <-] Hv.
    by apply elem_of_nil in Hv.
Qed.

Lemma filter_elem {A : Type} (f : A → bool) (l : list A) (e : A) :
  e ∈ l → f e = true → List.filter f l ≠ [].
Proof.
  intros He Hf E. apply list_elem_of_In in He.
  assert (In e (List.filter f l)) as H by (by apply filter_In).
  by rewrite E in H.
Qed.

Lemma apply_filters_none df : apply_filters df no_filters = Ok df.
Proof. reflexivity. Qed.

Lemma keep_isin_single df col v r :
  has_column df col = true →
  keep_isin df (Some [v]) col r = bool_decide (cell r col = v).
Proof.
  intros Hc. unfold keep_isin, in_force, member_row. rewrite Hc.
  cbn [truthy andb]. apply bool_decide_ext, list_elem_of_singleton.
Qed.

End OptionFacts.

(** X19: for a column whose non-missing cells are all strings, or all
    integers, [sorted_unique] returns a list: it is strictly ascending
    (strings by code points, integers by value), so it holds no value
    twice, and its members are exactly the non-missing cells of the
    column.  For a label the frame does not have the list is empty. *)
Theorem sorted_unique_ascending df col :
  (has_column df col = true → one_kind (column df col) = true) →
  ∃ opts, sorted_unique df col = Ok opts
    ∧ StronglySorted (λ a b, value_ltb a b = true) opts
    ∧ NoDup opts
    ∧ ∀ v, v ∈ opts
           ↔ has_column df col = true ∧ v ∈ column df col ∧ v ≠ VNaN.
Proof.
  intros H. destruct (has_column df col) eqn:Hc.
  - destruct (one_kind_sorted _ (H eq_refl)) as (r & Hr & Hs & Hp).
    exists r. rewrite sorted_unique_present by done.
    split; [done|]. split; [done|]. split; [by apply sorted_strict_nodup|].
    intros v. rewrite Hp, options_spec. tauto.
  - exists []. rewrite sorted_unique_absent by done.
    split; [done|]. split; [constructor|]. split; [constructor|].
    intros v. rewrite elem_of_nil. split; [done|]. by intros [? _].
Qed.

Lemma sorted_unique_ascending_witness :
  ∃ opts, sorted_unique injury_frame "PERSON_INJURY" = Ok opts
    ∧ StronglySorted (λ a b, value_ltb a b = true) opts
    ∧ NoDup opts
    ∧ ∀ v, v ∈ opts
           ↔ has_column injury_frame "PERSON_INJURY" = true
             ∧ v ∈ column injury_frame "PERSON_INJURY" ∧ v ≠ VNaN.
Proof.
  apply (sorted_unique_ascending injury_frame "PERSON_INJURY").
  intros _. vm_compute. reflexivity.
Defined.

(** X20: [sorted_unique] raises TypeError exactly when the frame has
    the column and the column holds both a string and an integer; in
    every other case it returns a list. *)
Theorem sorted_unique_type_error df col :
  (sorted_unique df col = Raise TypeError
   ↔ has_column df col = true
     ∧ ∃ a n, VStr a ∈ column df col ∧ VInt n ∈ column df col)
  ∧ (sorted_unique df col ≠ Raise TypeError
     → ∃ opts, sorted_unique df col = Ok opts).
Proof.
  destruct (has_column df col) eqn:Hc.
  - rewrite sorted_unique_present by done.
    destruct (one_kind (column df col)) eqn:Hk.
    + destruct (one_kind_sorted _ Hk) as (r & Hr & _). rewrite Hr.
      split; [|by exists r]. split; [done|].
      intros (_ & a & n & Ha & Hn).
      by rewrite (one_kind_mixed _ a n) in Hk.
    + destruct (one_kind_false _ Hk) as (a & n & Ha & Hn).
      rewrite (mixed_sorted _ a n) by done.
      split; [|done]. split; [|done]. intros _. split; [done|].
      by exists a, n.
  - rewrite sorted_unique_absent by done.
    split; [|by exists []]. split; [done|]. by intros [? _].
Qed.

(** X21: an option that [sorted_unique] lists for the vehicle type,
    contributing factor, person type or injury column, given to
    [apply_filters] as the only value of the criterion on that column,
    selects the rows whose cell is that option, and at least one:
    no option of these four lists leads to an empty result. *)
Theorem option_selects_rows {pv : Pandas} df col set opts v :
  (col, set) ∈ OPTION_CRITERIA →
  sorted_unique df col = Ok opts → v ∈ opts →
  apply_filters df (set (Some [v]) no_filters)
  = Ok (restrict df (λ r, bool_decide (cell r col = v)))
  ∧ rows (restrict df (λ r, bool_decide (cell r col = v))) ≠ [].
Proof.
  intros Hset Hopts Hv.
  destruct (sorted_unique_elem _ _ _ _ Hopts Hv) as (Hc & _ & r & Hr & Hrv).
  split.
  - rewrite apply_filters_char.
    assert ((∀ r', keep_exact df (set (Some [v]) no_filters) r'
                   = keep_isin df (Some [v]) col r')
            ∧ boroughs (set (Some [v]) no_filters) = None
            ∧ search_text (set (Some [v]) no_filters) = None)
      as (Hk & -> & ->).
    { unfold OPTION_CRITERIA in Hset.
      repeat (apply elem_of_cons in Hset as [[= -> ->]|Hset]);
        [..|by apply elem_of_nil in Hset].
      all: split; [|done]; intros r'; unfold keep_exact.
      all: cbn [years months hours injuries person_types vehicle_types
                factors set_vehicle_types set_factors set_person_types
                set_injuries no_filters].
      all: rewrite !keep_isin_none; cbn [andb].
      all: by rewrite ?andb_true_r. }
    change (borough_step df None) with (Ok df : outcome DataFrame).
    cbn [mbind outcome_bind bind]. change (searchable df None) with true.
    cbv iota. f_equal. apply restrict_pointwise. intros r'.
    rewrite Hk, keep_isin_single by done. apply andb_true_r.
  - cbn [rows restrict]. apply (filter_elem _ _ r); [done|].
    by apply bool_decide_eq_true_2.
Qed.

Lemma option_selects_rows_witness :
  every_release (λ pv,
    apply_filters injury_frame
      (set_injuries (Some [VStr "Killed"]) no_filters)
    = Ok (restrict injury_frame
            (λ r, bool_decide (cell r "PERSON_INJURY" = VStr "Killed")))
    ∧ rows (restrict injury_frame
              (λ r, bool_decide (cell r "PERSON_INJURY" = VStr "Killed")))
      ≠ []).
Proof.
  each_release.
  all: apply (option_selects_rows injury_frame "PERSON_INJURY" set_injuries
                [VStr "Injured"; VStr "Killed"] (VStr "Killed")).
  all: first [ by vm_compute | unfold OPTION_CRITERIA; repeat constructor ].
Defined.

(** X22: a string that [sorted_unique] lists for the borough column,
    given to [apply_filters] as the only borough, selects the rows
    whose borough is a string with the same upper-case form, the rows
    with that very borough among them, and so at least one row. *)
Theorem borough_option_selects_rows {pv : Pandas} df opts b :
  sorted_unique df "BOROUGH" = Ok opts → VStr b ∈ opts →
  apply_filters df (set_boroughs (Some [VStr b]) no_filters)
  = Ok (restrict df (upper_member_row COL_BOROUGH [upper b]))
  ∧ (∀ r, r ∈ rows df → cell r COL_BOROUGH = VStr b →
          upper_member_row COL_BOROUGH [upper b] r = true)
  ∧ rows (restrict df (upper_member_row COL_BOROUGH [upper b])) ≠ [].
Proof.
  intros Hopts Hv.
  destruct (sorted_unique_elem _ _ _ _ Hopts Hv) as (Hc & _ & r & Hr & Hrv).
  assert (∀ r, cell r COL_BOROUGH = VStr b →
               upper_member_row COL_BOROUGH [upper b] r = true) as Hb.
  { intros r' E. unfold upper_member_row. rewrite E.
    apply bool_decide_eq_true_2. by left. }
  split; [|split].
  - assert (one_kind (column df COL_BOROUGH) = true) as Hk.
    { destruct (one_kind _) eqn:Hk; [done|].
      destruct (one_kind_false _ Hk) as (a & n & Ha & Hn).
      rewrite sorted_unique_present in Hopts by done.
      change "BOROUGH"%string with COL_BOROUGH in Hopts.
      by rewrite (mixed_sorted _ a n) in Hopts. }
    change (Some [VStr b]) with (Some (VStr <$> [b])).
    rewrite apply_filters_boroughs, apply_filters_none.
    + cbn [fmap outcome_fmap bind]. f_equal. apply restrict_pointwise.
      intros r'. unfold keep_borough, in_force.
      change COL_BOROUGH with "BOROUGH"%string. by rewrite Hc.
    + unfold str_accessor.
      assert (VStr b ∈ List.filter notna (column df COL_BOROUGH)) as Hin.
      { apply list_elem_of_In, filter_In. split; [|done].
        apply list_elem_of_In, list_elem_of_fmap. by exists r. }
      destruct (List.filter notna (column df COL_BOROUGH)) as [|y l] eqn:E;
        [done|].
      destruct (forallb is_int (y :: l)) eqn:F; [|done].
      rewrite forallb_forall in F. apply list_elem_of_In, F in Hin. done.
  - intros r' _. apply Hb.
  - cbn [rows restrict]. apply (filter_elem _ _ r); [done|]. by apply Hb.
Qed.

Lemma borough_option_selects_rows_witness :
  every_release (λ pv,
    apply_filters queens5 (set_boroughs (Some [VStr "QUEENS"]) no_filters)
    = Ok (restrict queens5 (upper_member_row COL_BOROUGH [upper "QUEENS"]))
    ∧ (∀ r, r ∈ rows queens5 → cell r COL_BOROUGH = VStr "QUEENS" →
            upper_member_row COL_BOROUGH [upper "QUEENS"] r = true)
    ∧ rows (restrict queens5 (upper_member_row COL_BOROUGH [upper "QUEENS"]))
      ≠ []).
Proof.
  each_release.
  all: apply (borough_option_selects_rows queens5
                [VStr "BRONX"; VStr "BROOKLYN"; VStr "QUEENS"] "QUEENS").
  all: first [ by vm_compute | repeat constructor ].
Defined.
